(** * starnavi_fastapi: posts, comments, AI moderation and auto-reply

    A shallow embedding of the request handlers ([app/routers]), the
    moderation gate and reply generator ([app/ai_tools.py]), the auto-reply
    worker ([app/tasks.py]) and the ORM models ([app/models.py]).

    Conventions of the embedding:
    - Python [int] is [Z]; a nullable column or an optional field is an
      [option]; [str] is [string], each character a code point below 256.
    - A table is a finite map from its primary key to its rows.
    - Handlers run in a monad of exceptions over a world made of the
      database and the trace of what the process did to the outside (calls
      to the generative model, sleeps, printed lines, enqueued tasks).
    - The generative model is a parameter: any function from what happened
      so far and the prompt to either a response or a raised exception.
    - Timestamps ([created_at], [updated_at]) and the users table are left
      out: no handler below branches on them. *)

From stdpp Require Import gmap strings list fin_maps relations sorting.
From Stdlib Require Import ZArith Ascii.

Open Scope Z_scope.

(** ** Python strings *)

Module Py.

(** The characters [str.isspace] accepts, among code points below 256. *)
Definition isspace (c : ascii) : bool :=
  let n := Z.of_N (N_of_ascii c) in
  ((9 <=? n) && (n <=? 13)) || ((28 <=? n) && (n <=? 32))
  || (n =? 133) || (n =? 160).

Fixpoint lstrip (s : string) : string :=
  match s with
  | EmptyString => EmptyString
  | String c s' => if isspace c then lstrip s' else s
  end.

Definition rstrip (s : string) : string :=
  String.rev (lstrip (String.rev s)).

(** [s.strip()] *)
Definition strip (s : string) : string := rstrip (lstrip s).

Definition upper (c : ascii) : ascii :=
  let n := Z.of_N (N_of_ascii c) in
  if (97 <=? n) && (n <=? 122) then ascii_of_N (Z.to_N (n - 32)) else c.

Definition lower (c : ascii) : ascii :=
  let n := Z.of_N (N_of_ascii c) in
  if (65 <=? n) && (n <=? 90) then ascii_of_N (Z.to_N (n + 32)) else c.

Fixpoint map_chars (f : ascii → ascii) (s : string) : string :=
  match s with
  | EmptyString => EmptyString
  | String c s' => String (f c) (map_chars f s')
  end.

(** [s.capitalize()] on ASCII letters. *)
Definition capitalize (s : string) : string :=
  match s with
  | EmptyString => EmptyString
  | String c s' => String (upper c) (map_chars lower s')
  end.

(** The double quote character (code 34), for the prompt that quotes its
    text. *)
Definition dquote : string := String "034"%char EmptyString.

End Py.

Arguments Py.strip : simpl never.
Arguments Py.capitalize : simpl never.

(** ** app/models.py *)

Module User.
Record t := mk { id : Z; is_superuser : bool }.
End User.

Module Post.
Record t := mk {
  id : Z;
  title : string;
  content : string;
  author_id : Z;                 (* nullable=False *)
  is_blocked : bool;
  block_reason : string;
  auto_reply_enabled : bool;
  reply_delay : Z
}.
End Post.

Module Comment.
Record t := mk {
  id : Z;
  post_id : option Z;
  parent_id : option Z;
  content : string;
  author_id : option Z;
  is_blocked : bool;
  block_reason : string
}.
End Comment.

(** ** app/schemas *)

Module PostCreate.
(** [title] and [content] are required; the other two fields have
    defaults, and [None] records a field the request did not set (what
    [dict(exclude_unset=True)] leaves out). *)
Record t := mk {
  title : string;
  content : string;
  auto_reply_enabled : option bool;   (* = False *)
  reply_delay : option Z              (* = 0 *)
}.
End PostCreate.

Module CommentCreate.
Record t := mk {
  content : string;
  parent_id : option Z                (* = None *)
}.
End CommentCreate.

(** The body a moderated endpoint receives: [PostCreate | CommentCreate]. *)
Inductive Data :=
| DPost (p : PostCreate.t)
| DComment (c : CommentCreate.t).

Definition data_content (d : Data) : string :=
  match d with
  | DPost p => PostCreate.content p
  | DComment c => CommentCreate.content c
  end.

(** ** The generative model's responses *)

Record SafetyRating := { category : Z; probability : Z }.

Record Candidate := { safety_ratings : list SafetyRating }.

(** [candidates = None] is a response object without the attribute. *)
Record GenerateContentResponse := {
  candidates : option (list Candidate);
  text : string
}.

Inductive Outcome :=
| Returned (response : GenerateContentResponse)
| Raised (e : string).              (* any Exception; [e] is [str(e)] *)

(** ** Exceptions, events, the world *)

Inductive Exception :=
| HTTPException (status_code : Z) (detail : string)
| ValueError (msg : string)
| TypeError (msg : string)
| AttributeError (msg : string)
| NoResultFound
| IntegrityError
| ServiceError (e : string)         (* raised by the generative model *)
| FuelExhausted.                    (* the model's loop bound; never raised,
                                       see [moderate_content_with_ai_returns] *)

Inductive Event :=
| EvGenerate (prompt : string)      (* model.generate_content(prompt) *)
| EvSleep (seconds : Z)             (* time.sleep *)
| EvPrint (line : string)           (* print *)
| EvRollback                        (* db.rollback() *)
| EvApplyAsync (post_id comment_id countdown : Z).
                                    (* send_auto_reply.apply_async *)

#[export] Instance Event_eq_dec : EqDecision Event.
Proof. solve_decision. Defined.

Record DB := mkDB {
  posts : gmap Z Post.t;
  comments : gmap Z Comment.t
}.

Record World := mkWorld {
  db : DB;
  trace : list Event                (* oldest first *)
}.

(** ** The monad of handlers *)

Definition M (A : Type) : Type := World → (Exception + A) * World.

Definition ret {A} (a : A) : M A := λ w, (inr a, w).

Definition bind {A B} (m : M A) (k : A → M B) : M B :=
  λ w, match m w with
       | (inr a, w') => k a w'
       | (inl e, w') => (inl e, w')
       end.

Definition raise {A} (e : Exception) : M A := λ w, (inl e, w).

Notation "'let*' x ':=' m 'in' k" := (bind m (λ x, k))
  (at level 10, x pattern, m at level 100, k at level 200, only parsing).
Notation "m >> k" := (bind m (λ _, k))
  (at level 100, k at level 200, right associativity, only parsing).

Definition emit (ev : Event) : M unit :=
  λ w, (inr tt, mkWorld (db w) (trace w ++ [ev])).

Definition print (line : string) : M unit := emit (EvPrint line).

Definition get_db : M DB := λ w, (inr (db w), w).

Definition put_db (d : DB) : M unit := λ w, (inr tt, mkWorld d (trace w)).

(** [try: body except E: handler], where [catches] is the [except] clause. *)
Definition try_except {A} (body : M A) (catches : Exception → bool)
    (handler : Exception → M A) : M A :=
  λ w, match body w with
       | (inl e, w') => if catches e then handler e w' else (inl e, w')
       | r => r
       end.

(** What the client sees of an exception that leaves a handler: FastAPI
    answers an [HTTPException] with its status and anything else with 500. *)
Definition http_status (e : Exception) : Z :=
  match e with
  | HTTPException s _ => s
  | _ => 500
  end.

(** [str(e)] for the exceptions whose message a handler reads. *)
Definition str (e : Exception) : string :=
  match e with
  | HTTPException _ m | ValueError m | TypeError m
  | AttributeError m | ServiceError m => m
  | NoResultFound | IntegrityError | FuelExhausted => ""
  end.

(** What [check_blocked_obj_content] returns: the object, or a JSONResponse
    with [{"detail": ...}] as content. *)
Inductive Response (A : Type) :=
| Obj (obj : A)
| JSONResponse (status_code : Z) (detail : string).
Arguments Obj {A} obj.
Arguments JSONResponse {A} status_code detail.

(** [Post | Comment], as far as the block check reads them. *)
Class Blockable (A : Type) := {
  obj_is_blocked : A → bool;
  obj_block_reason : A → string
}.

#[export] Instance Post_Blockable : Blockable Post.t :=
  {| obj_is_blocked := Post.is_blocked; obj_block_reason := Post.block_reason |}.

#[export] Instance Comment_Blockable : Blockable Comment.t :=
  {| obj_is_blocked := Comment.is_blocked;
     obj_block_reason := Comment.block_reason |}.

(** The primary key the database gives a new row: above every key of the
    table, and at least 1. *)
Definition next_id {A} (table : gmap Z A) : Z :=
  1 + foldr Z.max 0 (map fst (map_to_list table)).

(** ** Deleting through the session

    [Comment.replies] is declared with [cascade="all, delete-orphan"]: when
    the session deletes a comment, the unit of work visits its replies,
    and theirs in turn, and deletes every comment it reaches. *)

Definition has_parent_in (ids : gset Z) (c : Comment.t) : bool :=
  match Comment.parent_id c with
  | Some p => bool_decide (p ∈ ids)
  | None => false
  end.

(** The comments whose parent is one of [ids]. *)
Definition replies_of (table : gmap Z Comment.t) (ids : gset Z) : gset Z :=
  dom (filter (λ kc : Z * Comment.t, has_parent_in ids kc.2 = true) table).

(** Rounds of [replies_of] from the deleted comment until nothing is added. *)
Fixpoint delete_cascade (fuel : nat) (table : gmap Z Comment.t) (ids : gset Z)
    : gset Z :=
  match fuel with
  | O => ids
  | S fuel' =>
      let ids' := ids ∪ replies_of table ids in
      if decide (ids' = ids) then ids else delete_cascade fuel' table ids'
  end.

(** [await db.delete(comment); await db.commit()] *)
Definition delete_commit_comment (comment_id : Z) : M unit :=
  λ w, let table := comments (db w) in
       let gone := delete_cascade (size table) table {[comment_id]} in
       (inr tt,
        mkWorld (mkDB (posts (db w))
                      (filter (λ kc : Z * Comment.t, kc.1 ∉ gone) table))
                (trace w)).

(** [Post.comments] has no delete cascade: the comments of a deleted post
    stay, with [post_id] set to NULL. *)
Definition orphan (post_id : Z) (c : Comment.t) : Comment.t :=
  if decide (Comment.post_id c = Some post_id) then
    Comment.mk (Comment.id c) None (Comment.parent_id c) (Comment.content c)
      (Comment.author_id c) (Comment.is_blocked c) (Comment.block_reason c)
  else c.

(** [await db.delete(post); await db.commit()] *)
Definition delete_commit_post (post_id : Z) : M unit :=
  λ w, (inr tt,
        mkWorld (mkDB (delete post_id (posts (db w)))
                      (orphan post_id <$> comments (db w)))
                (trace w)).

(** ** The generative model

    [model = genai.GenerativeModel("gemini-1.5-flash")], a global of
    [app/ai_tools.py]. [generate_content history prompt] is what the call
    does after the events [history]: it returns a response or raises. *)
Class GenerativeModel := generate_content : list Event → string → Outcome.

Section App.

Context {model : GenerativeModel}.

(** *** app/ai_tools.py *)

(** [model.generate_content(prompt)] *)
Definition model_generate_content (prompt : string)
    : M GenerateContentResponse :=
  λ w, let w' := mkWorld (db w) (trace w ++ [EvGenerate prompt]) in
       match generate_content (trace w) prompt with
       | Returned response => (inr response, w')
       | Raised e => (inl (ServiceError e), w')
       end.

Definition safety_categories : gmap Z string :=
  {[ 7 := "HARM_CATEGORY_HARASSMENT";
     8 := "HARM_CATEGORY_HATE_SPEECH";
     9 := "HARM_CATEGORY_SEXUALLY_EXPLICIT";
     10 := "HARM_CATEGORY_DANGEROUS_CONTENT" ]}.

(** The [while count <= 3 and not response] loop. A response object is
    true in a condition, [None] is not. *)
Fixpoint while_no_response (fuel : nat) (text_proc : string) (count : Z)
    (response : option GenerateContentResponse)
    : M (option GenerateContentResponse) :=
  if (count <=? 3) && negb (bool_decide (is_Some response)) then
    match fuel with
    | O => raise FuelExhausted
    | S fuel' =>
        let count := count + 1 in
        let* response :=
          try_except
            (let* r := model_generate_content text_proc in ret (Some r))
            (λ _, true)                           (* except Exception *)
            (λ e, print ("Error while AI text proceeds: " +:+ " " +:+ str e) >>
                  emit (EvSleep 5) >>
                  ret response) in
        while_no_response fuel' text_proc count response
    end
  else ret response.

(** [for rating in candidate.safety_ratings], up to its [return]. *)
Fixpoint for_ratings (ratings : list SafetyRating) : option (bool * string) :=
  match ratings with
  | [] => None
  | rating :: ratings' =>
      let category_name :=
        default "UNKNOWN_CATEGORY" (safety_categories !! category rating) in
      if 2 <=? probability rating then Some (true, category_name)
      else for_ratings ratings'
  end.

(** [for candidate in response.candidates]: the body ends in
    [return False, ""], so the loop leaves the function in its first
    round. [None] is falling off the end of the loop. *)
Definition for_candidates (cands : list Candidate) : option (bool * string) :=
  match cands with
  | [] => None
  | candidate :: _ =>
      match for_ratings (safety_ratings candidate) with
      | Some verdict => Some verdict
      | None => Some (false, "")
      end
  end.

(** The result is [None] where the Python function would return without
    a value. *)
Definition text_proc (text : string) : string :=
  "Please check the following text for obscene language and insults: "
  +:+ Py.dquote +:+ text +:+ Py.dquote.

Definition moderate_content_with_ai (text : string)
    : M (option (bool * string)) :=
  let text_proc := text_proc text in
  let* response := while_no_response 4 text_proc 0 None in
  match response with
  | None =>
      print "Content has been blocked because of AI-moderation is not available" >>
      ret (Some (true, "Error while AI text proceeds"))
  | Some response =>
      match candidates response with
      | Some ((_ :: _) as cands) => ret (for_candidates cands)
      | _ => ret (Some (false, ""))
      end
  end.

Definition reply_prompt (post : Post.t) (comment : Comment.t) : string :=
  "Generate a relevant response to this comment: '"
  +:+ Comment.content comment +:+ "' based on the post: '"
  +:+ Post.content post +:+ "'".

Definition generate_relevant_reply (post : Post.t) (comment : Comment.t)
    : M string :=
  let prompt := reply_prompt post comment in
  let* reply := model_generate_content prompt in
  ret (text reply).

(** *** app/models.py: validators and constructors *)

(** [validate_non_empty_string], the same body in [Post] and [Comment]. *)
Definition validate_non_empty_string (key value : string) : M string :=
  if String.eqb value "" || String.eqb (Py.strip value) "" then
    raise (ValueError (Py.capitalize key +:+ " cannot be an empty string."))
  else ret value.

(** [Comment(content=..., ...)]: the validator runs in the constructor;
    the object has no [id] until it is flushed, so the result still
    awaits one. [is_blocked] and [block_reason] are passed by the
    router, or take the column defaults [False] and [""]. *)
Definition Comment_init (content : string) (post_id parent_id : option Z)
    (author_id : option Z) (is_blocked : bool) (block_reason : string)
    : M (Z → Comment.t) :=
  let* content := validate_non_empty_string "content" content in
  ret (λ id, Comment.mk id post_id parent_id content author_id
               is_blocked block_reason).

(** The [Post] constructor on the fields of [post.dict()] followed by
    [author_id], [is_blocked] and [block_reason]: the keyword arguments
    are set in order, each mapped attribute through
    its validator; a [CommentCreate] brings [parent_id], which [Post] does
    not have. *)
Definition Post_init (post : Data) (author_id : Z) (is_blocked : bool)
    (block_reason : string) : M (Z → Post.t) :=
  match post with
  | DPost p =>
      let* title := validate_non_empty_string "title" (PostCreate.title p) in
      let* content := validate_non_empty_string "content" (PostCreate.content p) in
      ret (λ id, Post.mk id title content author_id is_blocked block_reason
                   (default false (PostCreate.auto_reply_enabled p))
                   (default 0 (PostCreate.reply_delay p)))
  | DComment c =>
      validate_non_empty_string "content" (CommentCreate.content c) >>
      raise (TypeError "'parent_id' is an invalid keyword argument for Post")
  end.

(** *** The session *)

(** [db.add(obj); await db.commit(); await db.refresh(obj)] for a new
    comment: the row gets its primary key; the foreign keys of
    [post_id] and [parent_id] must point at rows. *)
Definition add_commit_comment (new : Z → Comment.t) : M Comment.t :=
  let* d := get_db in
  let c := new (next_id (comments d)) in
  let fk {A} (table : gmap Z A) (ref : option Z) : bool :=
    match ref with
    | Some k => bool_decide (is_Some (table !! k))
    | None => true
    end in
  if fk (posts d) (Comment.post_id c) && fk (comments d) (Comment.parent_id c)
  then put_db (mkDB (posts d) (<[Comment.id c := c]> (comments d))) >> ret c
  else raise IntegrityError.

Definition add_commit_post (new : Z → Post.t) : M Post.t :=
  let* d := get_db in
  let p := new (next_id (posts d)) in
  put_db (mkDB (<[Post.id p := p]> (posts d)) (comments d)) >> ret p.

(** [except ValueError as e: raise HTTPException(status_code=422, detail=str(e))] *)
Definition value_error_422 {A} (body : M A) : M A :=
  try_except body
    (λ e, match e with ValueError _ => true | _ => false end)
    (λ e, raise (HTTPException 422 (str e))).

(** *** app/routers/tools.py *)

(** [is_blocked, block_reason = moderate_content_with_ai(...)] *)
Definition unpack (verdict : option (bool * string)) : M (bool * string) :=
  match verdict with
  | Some v => ret v
  | None => raise (TypeError "cannot unpack non-iterable NoneType object")
  end.

Definition moderate_content (data : Data) : M (Data * bool * string) :=
  let* early :=
    match data with
    | DPost p =>                                  (* hasattr(data, 'title') *)
        let* v := moderate_content_with_ai (PostCreate.title p) in
        let* v := unpack v in
        if v.1 then ret (Some v) else ret None
    | DComment _ => ret None
    end in
  match early with
  | Some (is_blocked, block_reason) => ret (data, is_blocked, block_reason)
  | None =>
      let* v := moderate_content_with_ai (data_content data) in
      let* v := unpack v in
      ret (data, v.1, v.2)
  end.

Definition check_post_blocked (post : Post.t) : M unit :=
  if Post.is_blocked post then
    raise (HTTPException 403 "You cannot create a comment for blocked content.")
  else ret tt.

Definition check_parent_comment_blocked (parent_id : Z) : M unit :=
  let* d := get_db in
  match comments d !! parent_id with
  | None => raise (HTTPException 404 "Parent comment not found.")
  | Some parent_comment =>
      if Comment.is_blocked parent_comment then
        raise (HTTPException 403 "You cannot create a comment for blocked content.")
      else ret tt
  end.

Definition check_blocked_obj_content {A} `{Blockable A} (obj : A)
    : Response A :=
  if obj_is_blocked obj then
    JSONResponse 400
      ("Content was blocked, reason - it contains inappropriate content: "
       +:+ obj_block_reason obj)
  else Obj obj.

(** [comment.parent_id], an attribute only [CommentCreate] has. *)
Definition get_parent_id (comment : Data) : M (option Z) :=
  match comment with
  | DComment c => ret (CommentCreate.parent_id c)
  | DPost _ =>
      raise (AttributeError "'PostCreate' object has no attribute 'parent_id'")
  end.

(** The constructor call stands before the [try]. *)
Definition create_new_comment (comment : Data) (post_id : Z)
    (current_user : User.t) (is_blocked : bool) (block_reason : string)
    : M (Response Comment.t) :=
  let* parent_id := get_parent_id comment in
  let* new_comment :=
    Comment_init (data_content comment) (Some post_id) parent_id
      (Some (User.id current_user)) is_blocked block_reason in
  let* new_comment := value_error_422 (add_commit_comment new_comment) in
  ret (check_blocked_obj_content new_comment).

(** The constructor call stands inside the [try]. *)
Definition create_new_post (post : Data) (current_user : User.t)
    (is_blocked : bool) (block_reason : string) : M (Response Post.t) :=
  let* new_post :=
    value_error_422
      (let* new_post :=
         Post_init post (User.id current_user) is_blocked block_reason in
       add_commit_post new_post) in
  ret (check_blocked_obj_content new_post).

(** [comment] is what [create_new_comment] returned. *)
Definition schedule_auto_reply_if_enabled (post : Post.t)
    (comment : Response Comment.t) : M unit :=
  if Post.auto_reply_enabled post then
    match comment with
    | Obj c =>
        if negb (Comment.is_blocked c) then
          emit (EvApplyAsync (Post.id post) (Comment.id c)
                  (Post.reply_delay post * 10))
        else ret tt
    | JSONResponse _ _ =>
        raise (AttributeError "'JSONResponse' object has no attribute 'is_blocked'")
    end
  else ret tt.

(** *** app/routers/comments.py

    Each handler starts with its dependency [Depends(moderate_content)];
    [current_user] is the authenticated user. *)

Definition create_comment (post_id : Z) (current_user : User.t)
    (data : Data) : M (Response Comment.t) :=
  let* comment_data := moderate_content data in
  let* d := get_db in
  match posts d !! post_id with
  | None => raise (HTTPException 404 "Post not found")
  | Some post =>
      let '(comment, is_blocked, block_reason) := comment_data in
      check_post_blocked post >>
      let* parent_id := get_parent_id comment in
      match parent_id with                        (* if comment.parent_id: *)
      | Some parent_id =>
          if negb (parent_id =? 0)
          then check_parent_comment_blocked parent_id
          else ret tt
      | None => ret tt
      end >>
      let* new_comment :=
        create_new_comment comment post_id current_user
          is_blocked block_reason in
      (if negb is_blocked
       then schedule_auto_reply_if_enabled post new_comment
       else ret tt) >>
      ret new_comment
  end.

(** The rows come in the order of the table, which the query leaves
    open. *)
Definition get_all_comments (post_id : Z) : M (list Comment.t) :=
  let* d := get_db in
  ret (filter (λ c, Comment.post_id c = Some post_id)
         (map snd (map_to_list (comments d)))).

Definition get_comment (comment_id : Z) : M Comment.t :=
  let* d := get_db in
  match comments d !! comment_id with
  | None => raise (HTTPException 404 "Comment not found")
  | Some comment => ret comment
  end.

Definition update_comment (comment_id : Z) (current_user : User.t)
    (data : Data) : M (Response Comment.t) :=
  let* updated_comment_data := moderate_content data in
  let '(updated_comment, is_blocked, block_reason) := updated_comment_data in
  let* d := get_db in
  match comments d !! comment_id with
  | None => raise (HTTPException 404 "Comment not found")
  | Some comment =>
      if negb (bool_decide
                 (Comment.author_id comment = Some (User.id current_user)))
      then raise (HTTPException 403 "Not authorized to update this comment")
      else
        let* content :=
          validate_non_empty_string "content"
            (data_content updated_comment) in
        let comment :=
          Comment.mk (Comment.id comment) (Comment.post_id comment)
            (Comment.parent_id comment) content (Comment.author_id comment)
            is_blocked block_reason in
        put_db (mkDB (posts d) (<[comment_id := comment]> (comments d))) >>
        ret (check_blocked_obj_content comment)
  end.

Definition delete_comment (comment_id : Z) (current_user : User.t)
    : M string :=
  let* d := get_db in
  match comments d !! comment_id with
  | None => raise (HTTPException 404 "Comment not found")
  | Some comment =>
      if negb (bool_decide
                 (Comment.author_id comment = Some (User.id current_user)))
         && negb (User.is_superuser current_user)
      then raise (HTTPException 403 "Not authorized to delete this comment")
      else
        delete_commit_comment comment_id >>
        ret "Comment deleted successfully"
  end.

(** *** app/routers/posts.py *)

Definition create_post (current_user : User.t) (data : Data)
    : M (Response Post.t) :=
  let* post_data := moderate_content data in
  let '(post, is_blocked, block_reason) := post_data in
  create_new_post post current_user is_blocked block_reason.

Definition list_posts : M (list Post.t) :=
  let* d := get_db in
  ret (filter (λ p, Post.is_blocked p = false)
         (map snd (map_to_list (posts d)))).

Definition get_post (post_id : Z) : M Post.t :=
  let* d := get_db in
  match posts d !! post_id with
  | None => raise (HTTPException 404 "Post not found")
  | Some post => ret post
  end.

(** [for key, value in post_data.dict(exclude_unset=True).items():
    setattr(post, key, value)], after the two block columns are set. A
    [parent_id] that a [CommentCreate] carries becomes a plain attribute
    of the object and reaches no column. *)
Definition setattrs (post : Post.t) (post_data : Data)
    (is_blocked : bool) (block_reason : string) : M Post.t :=
  match post_data with
  | DPost p =>
      let* title := validate_non_empty_string "title" (PostCreate.title p) in
      let* content :=
        validate_non_empty_string "content" (PostCreate.content p) in
      ret (Post.mk (Post.id post) title content (Post.author_id post)
             is_blocked block_reason
             (default (Post.auto_reply_enabled post)
                (PostCreate.auto_reply_enabled p))
             (default (Post.reply_delay post) (PostCreate.reply_delay p)))
  | DComment c =>
      let* content :=
        validate_non_empty_string "content" (CommentCreate.content c) in
      ret (Post.mk (Post.id post) (Post.title post) content
             (Post.author_id post) is_blocked block_reason
             (Post.auto_reply_enabled post) (Post.reply_delay post))
  end.

Definition update_post (post_id : Z) (current_user : User.t) (data : Data)
    : M (Response Post.t) :=
  let* post_data_tuple := moderate_content data in
  let* d := get_db in
  match posts d !! post_id with
  | None => raise (HTTPException 404 "Post not found")
  | Some post =>
      if negb (bool_decide (Post.author_id post = User.id current_user))
      then raise (HTTPException 403 "Not authorized to update this post")
      else
        let '(post_data, is_blocked, block_reason) := post_data_tuple in
        let* post :=
          value_error_422
            (let* post := setattrs post post_data is_blocked block_reason in
             put_db (mkDB (<[post_id := post]> (posts d)) (comments d)) >>
             ret post) in
        ret (check_blocked_obj_content post)
  end.

Definition delete_post (post_id : Z) (current_user : User.t) : M string :=
  let* d := get_db in
  match posts d !! post_id with
  | None => raise (HTTPException 404 "Post not found")
  | Some post =>
      if negb (bool_decide (Post.author_id post = User.id current_user))
         && negb (User.is_superuser current_user)
      then raise (HTTPException 403 "Not authorized to delete this post")
      else
        delete_commit_post post_id >>
        ret "Post deleted successfully"
  end.

(** *** app/tasks.py *)

(** [.scalar_one()] of a query by primary key. *)
Definition scalar_one {A} (row : option A) : M A :=
  match row with
  | Some a => ret a
  | None => raise NoResultFound
  end.

Definition _send_auto_reply_async (post_id comment_id : Z) : M unit :=
  try_except
    (let* d := get_db in
     let* post := scalar_one (posts d !! post_id) in
     let* comment := scalar_one (comments d !! comment_id) in
     let* reply_content := generate_relevant_reply post comment in
     let* reply_comment :=
       Comment_init reply_content (Some (Post.id post))
         (Some (Comment.id comment)) (Some (Post.author_id post))
         false "" in
     let* reply_comment := add_commit_comment reply_comment in
     print ("Auto reply has been created: "
            +:+ Comment.content reply_comment))
    (λ e, match e with NoResultFound => true | _ => false end)
    (λ _, emit EvRollback >> print "Post or Comment not found").

(** The celery task: [asyncio.run(_send_auto_reply_async(...))]. *)
Definition send_auto_reply (post_id comment_id : Z) : M unit :=
  _send_auto_reply_async post_id comment_id.

(** *** The operations of the system that write

    What a client or the task queue can ask for; the answer is dropped,
    the world after it is what remains. *)
Inductive Operation :=
| OpCreatePost (current_user : User.t) (data : Data)
| OpUpdatePost (post_id : Z) (current_user : User.t) (data : Data)
| OpDeletePost (post_id : Z) (current_user : User.t)
| OpCreateComment (post_id : Z) (current_user : User.t) (data : Data)
| OpUpdateComment (comment_id : Z) (current_user : User.t) (data : Data)
| OpDeleteComment (comment_id : Z) (current_user : User.t)
| OpAutoReply (post_id comment_id : Z).

Definition run (op : Operation) (w : World) : World :=
  match op with
  | OpCreatePost u data => (create_post u data w).2
  | OpUpdatePost i u data => (update_post i u data w).2
  | OpDeletePost i u => (delete_post i u w).2
  | OpCreateComment i u data => (create_comment i u data w).2
  | OpUpdateComment i u data => (update_comment i u data w).2
  | OpDeleteComment i u => (delete_comment i u w).2
  | OpAutoReply i j => (send_auto_reply i j w).2
  end.

End App.

(** * Vocabulary of the statements

    Predicates and rows the lemmas and theorems are stated with. *)

(** Events of the gate: calls to the model, sleeps and printed lines. *)
Definition gate_event (ev : Event) : Prop :=
  match ev with
  | EvGenerate _ | EvSleep _ | EvPrint _ => True
  | EvRollback | EvApplyAsync _ _ _ => False
  end.

Definition attempt_failed (text_proc e : string) : list Event :=
  [EvGenerate text_proc;
   EvPrint ("Error while AI text proceeds: " +:+ " " +:+ e);
   EvSleep 5].

(** A verdict pairs [True] with a reason and [False] with [""]. *)
Definition paired (is_blocked : bool) (block_reason : string) : Prop :=
  if is_blocked then block_reason ≠ "" else block_reason = "".

(** The events a handler added to the trace. *)
Definition new_events (w w' : World) : list Event :=
  drop (length (trace w)) (trace w').

(** The tasks among them: [(post_id, comment_id, countdown)]. *)
Definition enqueued (evs : list Event) : list (Z * Z * Z) :=
  omap (λ ev, match ev with
              | EvApplyAsync p c n => Some (p, c, n)
              | _ => None
              end) evs.

Definition new_comment_row (post_id : Z) (current_user : User.t)
    (c0 : CommentCreate.t) (is_blocked : bool) (block_reason : string)
    (d : DB) : Comment.t :=
  Comment.mk (next_id (comments d)) (Some post_id)
    (CommentCreate.parent_id c0) (CommentCreate.content c0)
    (Some (User.id current_user)) is_blocked block_reason.

Definition new_post_row (current_user : User.t) (p0 : PostCreate.t)
    (is_blocked : bool) (block_reason : string) (d : DB) : Post.t :=
  Post.mk (next_id (posts d)) (PostCreate.title p0) (PostCreate.content p0)
    (User.id current_user) is_blocked block_reason
    (default false (PostCreate.auto_reply_enabled p0))
    (default 0 (PostCreate.reply_delay p0)).

(** The row an update of a post writes. *)
Definition updated_post_row (post : Post.t) (data : Data)
    (is_blocked : bool) (block_reason : string) : Post.t :=
  match data with
  | DPost p =>
      Post.mk (Post.id post) (PostCreate.title p) (PostCreate.content p)
        (Post.author_id post) is_blocked block_reason
        (default (Post.auto_reply_enabled post)
           (PostCreate.auto_reply_enabled p))
        (default (Post.reply_delay post) (PostCreate.reply_delay p))
  | DComment c =>
      Post.mk (Post.id post) (Post.title post) (CommentCreate.content c)
        (Post.author_id post) is_blocked block_reason
        (Post.auto_reply_enabled post) (Post.reply_delay post)
  end.

Definition updated_comment_row (comment : Comment.t) (data : Data)
    (is_blocked : bool) (block_reason : string) : Comment.t :=
  Comment.mk (Comment.id comment) (Comment.post_id comment)
    (Comment.parent_id comment) (data_content data)
    (Comment.author_id comment) is_blocked block_reason.

(** [child] is a reply to [parent]. *)
Definition is_reply (table : gmap Z Comment.t) (parent child : Z) : Prop :=
  ∃ c, table !! child = Some c ∧ Comment.parent_id c = Some parent.

(** [k] is [root] or one of its descendants. *)
Definition in_subtree (table : gmap Z Comment.t) (root k : Z) : Prop :=
  rtc (is_reply table) root k.

(** [c] is a comment the handler created on its way from [w] to [w']. *)
Definition created (w w' : World) (c : Comment.t) : Prop :=
  comments (db w) !! Comment.id c = None
  ∧ comments (db w') !! Comment.id c = Some c.



Definition has_reason {A} `{Blockable A} (row : A) : Prop :=
  obj_is_blocked row = true → obj_block_reason row ≠ "".

(** [is_blocked=True] comes with a non-empty [block_reason], on every
    row. *)
Definition blocked_has_reason (d : DB) : Prop :=
  (∀ k p, posts d !! k = Some p → has_reason p)
  ∧ (∀ k c, comments d !! k = Some c → has_reason c).

Definition same_flags {A} `{Blockable A} (row row' : A) : Prop :=
  obj_is_blocked row = obj_is_blocked row'
  ∧ obj_block_reason row = obj_block_reason row'.

(** From [d] to [d'], every row either keeps the flags it had under
    its key or has a reason for its block. *)
Definition flags_kept_or_paired (d d' : DB) : Prop :=
  (∀ k p', posts d' !! k = Some p' →
     has_reason p' ∨ ∃ p, posts d !! k = Some p ∧ same_flags p p')
  ∧ (∀ k c', comments d' !! k = Some c' →
       has_reason c' ∨ ∃ c, comments d !! k = Some c ∧ same_flags c c').

(** Every row is stored under its own [id], the primary key. *)
Definition well_keyed (d : DB) : Prop :=
  (∀ k p, posts d !! k = Some p → Post.id p = k)
  ∧ (∀ k c, comments d !! k = Some c → Comment.id c = k).

(** What the validators reject: [not value or value.strip() == ""]. *)
Definition blank (value : string) : bool :=
  String.eqb value "" || String.eqb (Py.strip value) "".

(** * Concrete models and worlds

    The inputs of the runs at the end of the file. *)

Definition rating (category probability : Z) : SafetyRating :=
  {| category := category; probability := probability |}.

Definition respond (cands : list (list SafetyRating)) (text : string)
    : GenerateContentResponse :=
  {| candidates := Some (map (λ rs, {| safety_ratings := rs |}) cands);
     text := text |}.

(** A model that finds nothing wrong and always has a reply. *)
Definition lenient_model : GenerativeModel :=
  λ _ _, Returned (respond [[rating 7 1; rating 8 0]] "Thank you!").

(** A model that rates everything as harassment. *)
Definition strict_model : GenerativeModel :=
  λ _ _, Returned (respond [[rating 9 1; rating 7 3]] "").

(** A model whose second candidate alone is rated above the threshold. *)
Definition two_candidate_model : GenerativeModel :=
  λ _ _, Returned (respond [[rating 7 0]; [rating 7 3]] "").

(** A model that cannot be reached. *)
Definition unreachable_model : GenerativeModel :=
  λ _ _, Raised "503 Service Unavailable".

(** A model that replies with nothing. *)
Definition silent_model : GenerativeModel :=
  λ _ _, Returned (respond [] "").

Definition alice : User.t := User.mk 1 false.

Definition post1 : Post.t :=
  Post.mk 1 "This is title" "This is text" 1 false "" true 3.

Definition comment1 : Comment.t :=
  Comment.mk 1 (Some 1) None "Test comment text" (Some 1) false "".

Definition blocked_comment : Comment.t :=
  Comment.mk 1 (Some 1) None "Stupid bastard" (Some 1) true
    "HARM_CATEGORY_HARASSMENT".

Definition reply_to (id parent : Z) : Comment.t :=
  Comment.mk id (Some 1) (Some parent) "A reply" (Some 1) false "".

(** Comment 1 with the replies 2 and 5, the reply 3 to 2, and comment 4
    on its own. *)
Definition thread : gmap Z Comment.t :=
  list_to_map
    [(1, comment1); (2, reply_to 2 1); (3, reply_to 3 2);
     (4, Comment.mk 4 (Some 1) None "Another comment" (Some 1) false "");
     (5, reply_to 5 1)].

Definition w_post : World := mkWorld (mkDB {[1 := post1]} ∅) [].
Definition w_comment : World :=
  mkWorld (mkDB {[1 := post1]} {[1 := comment1]}) [].
Definition w_blocked : World :=
  mkWorld (mkDB {[1 := post1]} {[1 := blocked_comment]}) [].
Definition w_thread : World := mkWorld (mkDB {[1 := post1]} thread) [].

Definition hello : Data := DComment (CommentCreate.mk "Hello" None).

Definition hello_row : Comment.t :=
  Comment.mk 1 (Some 1) None "Hello" (Some 1) false "".

(** * Further vocabulary *)

(** The prompts sent to the model, in order. *)
Definition model_calls (evs : list Event) : list string :=
  omap (λ ev, match ev with
              | EvGenerate prompt => Some prompt
              | _ => None
              end) evs.

(** A handler refused the request: it raised [e], stored nothing, and
    what it added to the trace are events of the gate (so no task). *)
Definition refused {A} (run : (Exception + A) * World) (w : World)
    (e : Exception) : Prop :=
  ∃ evs, run = (inl e, mkWorld (db w) (trace w ++ evs))
         ∧ Forall gate_event evs.

(** Every character of [s] is white space. *)
Fixpoint all_space (s : string) : bool :=
  match s with
  | EmptyString => true
  | String c s' => Py.isspace c && all_space s'
  end.

(** * The analytics and the users

    Two routers that the handlers above do not call. *)

(** ** app/routers/analytics.py

    Dates are day numbers: [datetime.strptime(s, "%Y-%m-%d")] is the
    midnight of a day, and the query reads [func.date(created_at)], the
    day a comment was created. The two library functions are a
    parameter. *)
Class Calendar := {
  (** [datetime.strptime(s, "%Y-%m-%d")], [None] for its [ValueError] *)
  strptime : string → option Z;
  (** [date.strftime("%Y-%m-%d")] *)
  strftime : Z → string
}.

(** [analytics[date]] on a date that is not a key. *)
Inductive KeyError := MkKeyError (key : string).

(** A row of the aggregate query. [created_date] is a date, or already a
    [str] with drivers that return one. *)
Record Row := mkRow {
  created_date : string + Z;
  total_comments : Z;
  blocked_comments : Z
}.

Section Analytics.

Context {calendar : Calendar}.

Definition validate_dates (date_from date_to : string) : Exception + Z * Z :=
  match strptime date_from, strptime date_to with
  | Some start_date, Some end_date =>
      if end_date <? start_date then
        inl (HTTPException 400 "date_from must be earlier than date_to.")
      else inr (start_date, end_date)
  | _, _ => inl (HTTPException 400 "Invalid date format. Use YYYY-MM-DD.")
  end.

(** [[start_date + timedelta(days=i) for i in range((end_date - start_date).days + 1)]] *)
Definition get_date_range (start_date end_date : Z) : list Z :=
  map (λ i, start_date + Z.of_nat i)
    (seq 0 (Z.to_nat (end_date - start_date + 1))).

(** The comments with a creation day between the two dates, each with
    that day. [created_on] is the column [func.date(Comment.created_at)]
    by primary key; a comment without an entry has no timestamp. The
    column is a date, as on the PostgreSQL engine of
    app/database/session.py, so that [between] takes both days in. *)
Definition dated_comments (start_date end_date : Z) (created_on : gmap Z Z)
    (d : DB) : list (Z * Comment.t) :=
  omap (λ kc : Z * Comment.t,
          match created_on !! kc.1 with
          | Some day =>
              if bool_decide (start_date <= day <= end_date)
              then Some (day, kc.2) else None
          | None => None
          end)
       (map_to_list (comments d)).

(** The query: one row per creation day, in the order of the days, with
    the number of comments of the day and the number of blocked ones. *)
Definition get_comments_data (start_date end_date : Z)
    (created_on : gmap Z Z) (d : DB) : list Row :=
  let rows := dated_comments start_date end_date created_on d in
  let days := merge_sort Z.le (remove_dups (map fst rows)) in
  map (λ day,
         let group := filter (λ r : Z * Comment.t, r.1 = day) rows in
         mkRow (inr day) (Z.of_nat (length group))
           (Z.of_nat
              (length (filter (λ r : Z * Comment.t,
                                 Comment.is_blocked r.2 = true) group))))
      days.

(** The key of the entry in the dictionary. *)
Definition entry_date (entry : Row) : string :=
  match created_date entry with
  | inl date => date                      (* isinstance(..., str) *)
  | inr date => strftime date
  end.

(** The loop over [comments_data]. *)
Fixpoint fill_analytics (analytics : gmap string (Z * Z))
    (comments_data : list Row) : KeyError + gmap string (Z * Z) :=
  match comments_data with
  | [] => inr analytics
  | entry :: comments_data' =>
      let date := entry_date entry in
      match analytics !! date with
      | None => inl (MkKeyError date)
      | Some _ =>
          fill_analytics
            (<[date := (total_comments entry, blocked_comments entry)]>
               analytics)
            comments_data'
      end
  end.

(** The value of a date is the pair [(total_comments, blocked_comments)]. *)
Definition build_analytics_dict (date_range : list Z)
    (comments_data : list Row) : KeyError + gmap string (Z * Z) :=
  let analytics :=
    foldl (λ analytics date, <[strftime date := (0, 0)]> analytics)
      ∅ date_range in
  fill_analytics analytics comments_data.

Definition comments_daily_breakdown (current_user : User.t)
    (date_from date_to : string) (created_on : gmap Z Z) (d : DB)
    : Exception + KeyError + gmap string (Z * Z) :=
  if negb (User.is_superuser current_user) then
    inl (inl (HTTPException 403 "Not authorized to retrieve this info"))
  else
    match validate_dates date_from date_to with
    | inl e => inl (inl e)
    | inr (start_date, end_date) =>
        let date_range := get_date_range start_date end_date in
        let comments_data :=
          get_comments_data start_date end_date created_on d in
        match build_analytics_dict date_range comments_data with
        | inl e => inl (inr e)
        | inr analytics => inr analytics
        end
    end.

End Analytics.

(** The comments created on [day]. *)
Definition comments_of_day (created_on : gmap Z Z) (d : DB) (day : Z)
    : list (Z * Comment.t) :=
  filter (λ kc : Z * Comment.t, created_on !! kc.1 = Some day)
    (map_to_list (comments d)).

(** The figures of a day: how many comments, how many of them blocked. *)
Definition day_figures (created_on : gmap Z Z) (d : DB) (day : Z) : Z * Z :=
  (Z.of_nat (length (comments_of_day created_on d day)),
   Z.of_nat (length (filter (λ kc : Z * Comment.t,
                               Comment.is_blocked kc.2 = true)
                       (comments_of_day created_on d day)))).

(** ** app/routers/users.py

    The users table is a map of its own: the handlers above receive the
    authenticated user and never read it. Times and durations are in
    seconds. *)

Module UserRow.
Record t := mk {
  id : Z;
  username : string;                  (* unique *)
  email : string;                     (* unique *)
  hashed_password : string;
  is_active : bool;                   (* default=True *)
  is_superuser : bool                 (* default=False *)
}.
End UserRow.

(** A value of the payload of a token. *)
Inductive Claim :=
| ClaimStr (s : string)
| ClaimTime (t : Z).

(** The password context, the token library and the settings. *)
Class Security := {
  (** [pwd_context.hash(password)], with the salt it drew *)
  pwd_hash : string → string → string;
  (** [pwd_context.verify(password, hashed_password)] *)
  pwd_verify : string → string → bool;
  (** [jwt.encode(claims, settings.SECRET_KEY, algorithm=settings.ALGORITHM)] *)
  jwt_encode : gmap string Claim → string;
  (** [int(settings.ACCESS_TOKEN_EXPIRE_MINUTES)] *)
  ACCESS_TOKEN_EXPIRE_MINUTES : Z
}.

Record Token := mkToken {
  access_token : string;
  refresh_token : string;
  token_type : string                 (* = "bearer" *)
}.

Section Users.

Context {security : Security}.

(** [timedelta(minutes=m)] and [timedelta(days=d)] *)
Definition minutes (m : Z) : Z := m * 60.
Definition days (d : Z) : Z := d * 86400.

(** [utcnow] is what [datetime.utcnow()] returns in the call. A
    [timedelta] of zero is false in [expires_delta or ...]. *)
Definition create_access_token (data : gmap string Claim)
    (expires_delta : option Z) (utcnow : Z) : string :=
  let to_encode := data in
  let delta :=
    match expires_delta with
    | Some delta =>
        if delta =? 0 then minutes ACCESS_TOKEN_EXPIRE_MINUTES else delta
    | None => minutes ACCESS_TOKEN_EXPIRE_MINUTES
    end in
  let expire := utcnow + delta in
  let to_encode := <["exp" := ClaimTime expire]> to_encode in
  jwt_encode to_encode.

(** The unique constraints of [username] and [email], checked by the
    commit. *)
Definition taken (username email : string) (users : gmap Z UserRow.t)
    : bool :=
  bool_decide
    (Exists (λ u, UserRow.username u = username ∨ UserRow.email u = email)
       (map snd (map_to_list users))).

(** [salt] is the randomness of the hash. The commit raises
    [IntegrityError] on a taken username or email; the handler rolls back
    and answers 400. *)
Definition register (username email password salt : string)
    (users : gmap Z UserRow.t)
    : (Exception + string) * gmap Z UserRow.t :=
  let id := next_id users in
  let new_user :=
    UserRow.mk id username email (pwd_hash salt password) true false in
  if taken username email users then
    (inl (HTTPException 400 "Email or username already exists"), users)
  else
    (inr "User registered successfully", <[id := new_user]> users).

(** [select(User).filter(User.username == username)], [.first()] *)
Definition user_by_username (username : string) (users : gmap Z UserRow.t)
    : option UserRow.t :=
  snd <$> list_find (λ u, UserRow.username u = username)
            (map snd (map_to_list users)).

(** [utcnow1] and [utcnow2] are the clock at the two calls of
    [create_access_token]. *)
Definition login (username password : string) (utcnow1 utcnow2 : Z)
    (users : gmap Z UserRow.t) : Exception + Token :=
  match user_by_username username users with
  | None => inl (HTTPException 400 "Invalid credentials")
  | Some user =>
      if negb (pwd_verify password (UserRow.hashed_password user)) then
        inl (HTTPException 400 "Invalid credentials")
      else
        let access_token_expires := minutes ACCESS_TOKEN_EXPIRE_MINUTES in
        let access_token :=
          create_access_token {["sub" := ClaimStr (UserRow.username user)]}
            (Some access_token_expires) utcnow1 in
        let refresh_token :=
          create_access_token {["sub" := ClaimStr (UserRow.username user)]}
            (Some (days 7)) utcnow2 in
        inr (mkToken access_token refresh_token "bearer")
  end.

End Users.

(** No two rows share a username or an email. *)
Definition unique_credentials (users : gmap Z UserRow.t) : Prop :=
  ∀ i j u v,
    users !! i = Some u → users !! j = Some v →
    UserRow.username u = UserRow.username v
    ∨ UserRow.email u = UserRow.email v →
    i = j.

(** * Further users, posts and worlds *)

(** A model that is out of reach for the first four calls and answers
    from the fifth call on. *)
Definition flaky_model : GenerativeModel :=
  λ trace _,
    if (length (model_calls trace) <? 4)%nat
    then Raised "503 Service Unavailable"
    else Returned (respond [[rating 7 1; rating 8 0]] "Thank you!").

Definition bob : User.t := User.mk 2 false.
Definition admin : User.t := User.mk 3 true.

Definition post2 : Post.t :=
  Post.mk 2 "Second post" "Other text" 2 false "" false 0.

Definition blocked_post : Post.t :=
  Post.mk 2 "This is blocked title" "This is text" 1 true
    "HARM_CATEGORY_HARASSMENT" false 0.

Definition w_blocked_post : World :=
  mkWorld (mkDB {[2 := blocked_post]} ∅) [].

(** Posts 1 and 2, and comment 1 on post 1. *)
Definition w_two_posts : World :=
  mkWorld (mkDB (<[2 := post2]> {[1 := post1]}) {[1 := comment1]}) [].

Definition bad_post : PostCreate.t :=
  PostCreate.mk "Bad title" "Fine text" None None.

Definition new_post : PostCreate.t :=
  PostCreate.mk "New Post" "This is a new post content." None None.

Definition reply_data (parent_id : Z) : Data :=
  DComment (CommentCreate.mk "A reply" (Some parent_id)).

Definition new_post_row_2 : Post.t :=
  Post.mk 2 "New Post" "This is a new post content." 1 false "" false 0.

Definition w_new_post : World :=
  mkWorld (mkDB (<[2 := new_post_row_2]> {[1 := post1]}) ∅)
    [EvGenerate (text_proc "New Post");
     EvGenerate (text_proc "This is a new post content.")].

Definition w_hello : World :=
  mkWorld (mkDB {[1 := post1]} {[1 := hello_row]})
    [EvGenerate (text_proc "Hello"); EvApplyAsync 1 1 30].

Definition updated_post1 : Post.t :=
  Post.mk 1 "New Post" "This is a new post content." 1 false "" true 3.

Definition w_updated_post : World :=
  mkWorld (mkDB {[1 := updated_post1]} ∅)
    [EvGenerate (text_proc "New Post");
     EvGenerate (text_proc "This is a new post content.")].

Definition w_updated_comment : World :=
  mkWorld (mkDB {[1 := post1]} {[1 := hello_row]})
    [EvGenerate (text_proc "Hello")].

Definition thanks : GenerateContentResponse :=
  respond [[rating 7 1; rating 8 0]] "Thank you!".

Definition thanks_row (id parent : Z) : Comment.t :=
  Comment.mk id (Some 1) (Some parent) "Thank you!" (Some 1) false "".

(** The first three days of November 2024, by their ordinals. *)
Definition november : Calendar := {|
  strptime s :=
    if decide (s = "2024-11-01") then Some 739191
    else if decide (s = "2024-11-02") then Some 739192
    else if decide (s = "2024-11-03") then Some 739193
    else None;
  strftime day :=
    if day =? 739191 then "2024-11-01"
    else if day =? 739192 then "2024-11-02"
    else if day =? 739193 then "2024-11-03"
    else "another day"
|}.

(** Three comments on post 1, the second one blocked. *)
Definition three_comments : DB :=
  mkDB {[1 := post1]}
    (list_to_map
       [(1, comment1);
        (2, Comment.mk 2 (Some 1) None "Stupid bastard" (Some 1) true
              "HARM_CATEGORY_HARASSMENT");
        (3, reply_to 3 1)]).

(** Comments 1 and 2 are of the first of November, comment 3 of the
    third. *)
Definition three_comments_days : gmap Z Z :=
  list_to_map [(1, 739191); (2, 739191); (3, 739193)].

Definition november_rows : list Row :=
  [mkRow (inr 739191) 2 1; mkRow (inl "2024-11-03") 1 0].

(** A password context that keeps the password after the salt, and a
    token that shows its subject. *)
Definition toy_security : Security := {|
  pwd_hash salt password := salt +:+ "$" +:+ password;
  pwd_verify password hashed :=
    bool_decide
      (String.substring
         (String.length hashed - String.length password - 1)%nat
         (S (String.length password)) hashed
       = "$" +:+ password);
  jwt_encode claims :=
    match claims !! "sub" with
    | Some (ClaimStr sub) => "token of " +:+ sub
    | _ => "token"
    end;
  ACCESS_TOKEN_EXPIRE_MINUTES := 30
|}.

Definition users0 : gmap Z UserRow.t :=
  {[1 := UserRow.mk 1 "alice" "alice@example.com" "s1$secret" true false]}.

Definition users1 : gmap Z UserRow.t :=
  <[2 := UserRow.mk 2 "bob" "bob@example.com" "s2$hunter2" true false]>
    users0.

(** * Facts

    Everything below holds for every generative model. *)

Section Facts.

Context {model : GenerativeModel}.

(** ** The moderation gate: basic facts *)

Lemma app_trace (w : World) (evs evs' : list Event) :
  mkWorld (db w) ((trace w ++ evs) ++ evs')
  = mkWorld (db w) (trace w ++ evs ++ evs').
Proof. by rewrite <- app_assoc. Qed.

(** One round of the loop when the call raises. *)
Lemma while_no_response_raised fuel text_proc count w e :
  count <= 3 →
  generate_content (trace w) text_proc = Raised e →
  while_no_response (S fuel) text_proc count None w
  = while_no_response fuel text_proc (count + 1) None
      (mkWorld (db w) (trace w ++ attempt_failed text_proc e)).
Proof.
  intros Hc He. cbn [while_no_response].
  replace (count <=? 3) with true by (symmetry; by apply Z.leb_le).
  cbn [andb negb bool_decide]. rewrite bool_decide_false by (by intros [? ?]).
  cbn [negb]. unfold bind at 1, try_except, bind at 1, model_generate_content.
  rewrite He. cbn. unfold attempt_failed. by rewrite <- !app_assoc.
Qed.

(** One round of the loop when the call returns. *)
Lemma while_no_response_returned fuel text_proc count w r :
  count <= 3 →
  generate_content (trace w) text_proc = Returned r →
  while_no_response (S fuel) text_proc count None w
  = (inr (Some r), mkWorld (db w) (trace w ++ [EvGenerate text_proc])).
Proof.
  intros Hc He. cbn [while_no_response].
  replace (count <=? 3) with true by (symmetry; by apply Z.leb_le).
  rewrite bool_decide_false by (by intros [? ?]).
  cbn [andb negb]. unfold bind at 1, try_except, bind at 1, model_generate_content.
  rewrite He. cbn. destruct fuel; cbn [while_no_response];
    rewrite bool_decide_true by eauto; by rewrite andb_false_r.
Qed.

Lemma while_no_response_done fuel text_proc count w :
  3 < count →
  while_no_response fuel text_proc count None w = (inr None, w).
Proof.
  intros Hc. destruct fuel; cbn [while_no_response];
    by replace (count <=? 3) with false by (symmetry; by apply Z.leb_gt).
Qed.

(** With enough fuel the loop ends by its own condition, after at most
    [4 - count] calls, and leaves the database alone. *)
Lemma while_no_response_spec fuel text_proc count w :
  (Z.to_nat (4 - count) ≤ fuel)%nat →
  ∃ response evs,
    while_no_response fuel text_proc count None w
    = (inr response, mkWorld (db w) (trace w ++ evs))
    ∧ Forall gate_event evs
    ∧ (length (filter (λ ev, ev = EvGenerate text_proc) evs)
       ≤ Z.to_nat (4 - count))%nat.
Proof.
  revert count w. induction fuel as [|fuel IH]; intros count w Hfuel.
  - exists None, []. rewrite while_no_response_done by lia.
    rewrite app_nil_r. destruct w; repeat split; [constructor | cbn; lia].
  - destruct (decide (count <= 3)) as [Hc|Hc].
    + destruct (generate_content (trace w) text_proc) as [r|e] eqn:He.
      * exists (Some r), [EvGenerate text_proc].
        rewrite (while_no_response_returned _ _ _ _ r) by done.
        repeat split; [repeat constructor | ].
        rewrite filter_cons_True by done. cbn. lia.
      * rewrite (while_no_response_raised _ _ _ _ e) by done.
        destruct (IH (count + 1) (mkWorld (db w)
                    (trace w ++ attempt_failed text_proc e)))
          as (resp & evs & Heq & Hev & Hlen); [lia|].
        exists resp, (attempt_failed text_proc e ++ evs).
        cbn [db trace] in Heq. rewrite <- app_assoc in Heq.
        repeat split; [done | | ].
        -- apply Forall_app; split; [repeat constructor | done].
        -- unfold attempt_failed. rewrite filter_app, length_app.
           rewrite filter_cons_True by done.
           rewrite filter_cons_False by done.
           rewrite filter_cons_False by done. cbn [filter length]. 
           rewrite filter_nil. cbn [length]. lia.
    + exists None, []. rewrite while_no_response_done by lia.
      rewrite app_nil_r. destruct w; repeat split; [constructor | cbn; lia].
Qed.

Lemma category_name_nonempty (k : Z) :
  default "UNKNOWN_CATEGORY" (safety_categories !! k) ≠ "".
Proof.
  unfold safety_categories.
  destruct (decide (k = 7)) as [->|]; [done|].
  destruct (decide (k = 8)) as [->|]; [done|].
  destruct (decide (k = 9)) as [->|]; [done|].
  destruct (decide (k = 10)) as [->|]; [done|].
  rewrite !lookup_insert_ne by done. by rewrite lookup_singleton_ne.
Qed.

Lemma for_ratings_blocked ratings v :
  for_ratings ratings = Some v → v.1 = true ∧ v.2 ≠ "".
Proof.
  induction ratings as [|rating ratings IH]; cbn [for_ratings]; [done|].
  destruct (2 <=? probability rating); [|done].
  intros [= <-]; split; [done | apply category_name_nonempty].
Qed.

Lemma for_candidates_paired cands v :
  for_candidates cands = Some v → paired v.1 v.2.
Proof.
  destruct cands as [|candidate cands]; cbn [for_candidates]; [done|].
  destruct (for_ratings (safety_ratings candidate)) as [v'|] eqn:Hr.
  - intros [= <-]. apply for_ratings_blocked in Hr as [-> ?]. done.
  - by intros [= <-].
Qed.

(** The gate always answers, with a paired verdict, whatever the model
    does; it touches nothing but the trace. *)
Lemma moderate_content_with_ai_returns text w :
  ∃ is_blocked block_reason evs,
    moderate_content_with_ai text w
    = (inr (Some (is_blocked, block_reason)),
       mkWorld (db w) (trace w ++ evs))
    ∧ Forall gate_event evs
    ∧ paired is_blocked block_reason.
Proof.
  unfold moderate_content_with_ai.
  destruct (while_no_response_spec 4 (text_proc text) 0 w)
    as (response & evs & Heq & Hev & _); [lia|].
  unfold bind at 1. rewrite Heq.
  destruct response as [response|].
  - destruct (candidates response) as [[|candidate cands]|] eqn:Hc.
    + by exists false, "", evs.
    + destruct (for_candidates (candidate :: cands)) as [[b r]|] eqn:Hf.
      * exists b, r, evs. repeat split; [done|].
        by apply for_candidates_paired in Hf.
      * cbn in Hf. by destruct (for_ratings (safety_ratings candidate)).
    + by exists false, "", evs.
  - exists true, "Error while AI text proceeds",
      (evs ++ [EvPrint "Content has been blocked because of AI-moderation is not available"]).
    unfold bind, print, emit, ret. cbn [db trace]. rewrite <- app_assoc.
    repeat split; [|done].
    apply Forall_app; split; [done | repeat constructor].
Qed.

Lemma moderate_content_returns data w :
  ∃ is_blocked block_reason evs,
    moderate_content data w
    = (inr (data, is_blocked, block_reason),
       mkWorld (db w) (trace w ++ evs))
    ∧ Forall gate_event evs
    ∧ paired is_blocked block_reason.
Proof.
  unfold moderate_content.
  assert (Hcontent : ∀ w1 evs1,
    w1 = mkWorld (db w) (trace w ++ evs1) → Forall gate_event evs1 →
    ∃ is_blocked block_reason evs,
      (let* v := moderate_content_with_ai (data_content data) in
       let* v := unpack v in
       ret (data, v.1, v.2)) w1
      = (inr (data, is_blocked, block_reason),
         mkWorld (db w) (trace w ++ evs))
      ∧ Forall gate_event evs ∧ paired is_blocked block_reason).
  { intros w1 evs1 -> Hev1.
    destruct (moderate_content_with_ai_returns (data_content data)
                (mkWorld (db w) (trace w ++ evs1)))
      as (b & r & evs & Heq & Hev & Hp).
    exists b, r, (evs1 ++ evs). unfold bind at 1. rewrite Heq.
    cbn. rewrite <- app_assoc. repeat split; [|done].
    by apply Forall_app. }
  destruct data as [p|c].
  - destruct (moderate_content_with_ai_returns (PostCreate.title p) w)
      as (b & r & evs & Heq & Hev & Hp).
    unfold bind at 1. unfold bind at 1. rewrite Heq.
    cbn [unpack]. unfold bind at 1. unfold ret at 1. cbn [fst].
    destruct b.
    + exists true, r, evs. by cbn.
    + unfold ret at 1. by apply (Hcontent _ evs).
  - unfold bind at 1, ret at 1. apply (Hcontent _ []); [|done].
    rewrite app_nil_r. by destruct w.
Qed.

(** ** Tables *)

Lemma next_id_above {A} (table : gmap Z A) k :
  is_Some (table !! k) → k < next_id table.
Proof.
  intros [a Ha]. unfold next_id.
  apply elem_of_map_to_list in Ha.
  induction (map_to_list table) as [|[k' a'] l IH]; cbn.
  - by apply elem_of_nil in Ha.
  - apply elem_of_cons in Ha as [[= <- <-]|Ha]; [lia|].
    specialize (IH Ha). lia.
Qed.

Lemma next_id_fresh {A} (table : gmap Z A) : table !! next_id table = None.
Proof.
  destruct (table !! next_id table) eqn:H; [|done].
  assert (next_id table < next_id table) by (apply next_id_above; eauto).
  lia.
Qed.

(** ** What a handler leaves behind *)

Lemma new_events_app w d evs :
  new_events w (mkWorld d (trace w ++ evs)) = evs.
Proof. unfold new_events. cbn. by rewrite drop_app_length. Qed.

Lemma enqueued_gate evs : Forall gate_event evs → enqueued evs = [].
Proof.
  induction 1 as [|ev evs Hev _ IH]; [done|].
  unfold enqueued in *. cbn. rewrite IH. by destruct ev.
Qed.

Lemma enqueued_app evs evs' : enqueued (evs ++ evs') = enqueued evs ++ enqueued evs'.
Proof. apply omap_app. Qed.

(** ** Inversion of the write handlers

    Each lemma reads a run of a handler back: the verdict the dependency
    computed, and either an exception that left the database as it was,
    or the row that was written and the answer that was sent. *)

Ltac unfold_handlers H :=
  unfold check_post_blocked, create_new_comment, create_new_post,
    get_parent_id, check_parent_comment_blocked, Comment_init, Post_init,
    setattrs, validate_non_empty_string, value_error_422,
    add_commit_comment, add_commit_post, schedule_auto_reply_if_enabled,
    delete_commit_comment, delete_commit_post, scalar_one,
    generate_relevant_reply, model_generate_content, print,
    check_blocked_obj_content, try_except, bind, raise, ret, get_db,
    put_db, emit in H;
  cbn [db trace posts comments] in H.

Ltac handler_cases := repeat (case_match; simplify_eq/=).

(** The moderation dependency of a handler, as the first step of
    [handler]. *)
Ltac moderated H data w :=
  let b := fresh "is_blocked" in
  let r := fresh "block_reason" in
  let evs := fresh "evs" in
  let Hm := fresh "Hm" in
  let Hev := fresh "Hev" in
  let Hp := fresh "Hp" in
  destruct (moderate_content_returns data w)
    as (b & r & evs & Hm & Hev & Hp);
  exists b, r, evs; split_and!; [done..|];
  unfold bind at 1 in H; rewrite Hm in H.

Lemma create_comment_inv post_id current_user data w res w' :
  create_comment post_id current_user data w = (res, w') →
  ∃ is_blocked block_reason evs,
    moderate_content data w
    = (inr (data, is_blocked, block_reason),
       mkWorld (db w) (trace w ++ evs))
    ∧ Forall gate_event evs
    ∧ paired is_blocked block_reason
    ∧ ((∃ e, res = inl e ∧ w' = mkWorld (db w) (trace w ++ evs))
       ∨ (∃ post c0,
            posts (db w) !! post_id = Some post
            ∧ data = DComment c0
            ∧ let c := new_comment_row post_id current_user c0
                         is_blocked block_reason (db w) in
              res = inr (check_blocked_obj_content c)
              ∧ w' = mkWorld
                       (mkDB (posts (db w))
                             (<[Comment.id c := c]> (comments (db w))))
                       (trace w ++ evs ++
                        if negb is_blocked && Post.auto_reply_enabled post
                        then [EvApplyAsync (Post.id post) (Comment.id c)
                                (Post.reply_delay post * 10)]
                        else []))).
Proof.
  intros H. unfold create_comment in H. moderated H data w.
  unfold bind at 1, get_db in H. cbn [db] in H.
  destruct (posts (db w) !! post_id) as [post|] eqn:Hpost;
    [|left; eexists; by inversion H].
  destruct post as [pid ptitle pcontent pauthor pblocked preason pauto pdelay].
  destruct data as [p|[content parent]].
  all: unfold_handlers H; unfold check_blocked_obj_content in *; cbn in H.
  all: destruct is_blocked; cbn in H; handler_cases;
    first [ by (left; eexists)
          | right; do 2 eexists; split_and!; try done;
            unfold new_comment_row; cbn;
            by rewrite <- ?app_assoc, ?app_nil_r ].
Qed.

Lemma create_post_inv current_user data w res w' :
  create_post current_user data w = (res, w') →
  ∃ is_blocked block_reason evs,
    moderate_content data w
    = (inr (data, is_blocked, block_reason),
       mkWorld (db w) (trace w ++ evs))
    ∧ Forall gate_event evs
    ∧ paired is_blocked block_reason
    ∧ ((∃ e, res = inl e ∧ w' = mkWorld (db w) (trace w ++ evs))
       ∨ (∃ p0,
            data = DPost p0
            ∧ let p := new_post_row current_user p0
                         is_blocked block_reason (db w) in
              res = inr (check_blocked_obj_content p)
              ∧ w' = mkWorld
                       (mkDB (<[Post.id p := p]> (posts (db w)))
                             (comments (db w)))
                       (trace w ++ evs))).
Proof.
  intros H. unfold create_post in H. moderated H data w.
  destruct data as [[title content auto delay]|c].
  all: unfold_handlers H; unfold check_blocked_obj_content in *; cbn in H.
  all: destruct is_blocked; cbn in H; handler_cases;
    first [ by (left; eexists)
          | right; eexists; split_and!; done ].
Qed.

Lemma update_post_inv post_id current_user data w res w' :
  update_post post_id current_user data w = (res, w') →
  ∃ is_blocked block_reason evs,
    moderate_content data w
    = (inr (data, is_blocked, block_reason),
       mkWorld (db w) (trace w ++ evs))
    ∧ Forall gate_event evs
    ∧ paired is_blocked block_reason
    ∧ ((∃ e, res = inl e ∧ w' = mkWorld (db w) (trace w ++ evs))
       ∨ (∃ post,
            posts (db w) !! post_id = Some post
            ∧ let post' := updated_post_row post data
                             is_blocked block_reason in
              res = inr (check_blocked_obj_content post')
              ∧ w' = mkWorld
                       (mkDB (<[post_id := post']> (posts (db w)))
                             (comments (db w)))
                       (trace w ++ evs))).
Proof.
  intros H. unfold update_post in H. moderated H data w.
  unfold bind at 1, get_db in H. cbn [db] in H.
  destruct (posts (db w) !! post_id) as [post|] eqn:Hpost;
    [|left; eexists; by inversion H].
  destruct data as [[title content auto delay]|[content parent]].
  all: unfold_handlers H; unfold check_blocked_obj_content in *; cbn in H.
  all: destruct is_blocked; cbn in H; handler_cases;
    first [ by (left; eexists)
          | right; eexists; split_and!; done ].
Qed.

Lemma update_comment_inv comment_id current_user data w res w' :
  update_comment comment_id current_user data w = (res, w') →
  ∃ is_blocked block_reason evs,
    moderate_content data w
    = (inr (data, is_blocked, block_reason),
       mkWorld (db w) (trace w ++ evs))
    ∧ Forall gate_event evs
    ∧ paired is_blocked block_reason
    ∧ ((∃ e, res = inl e ∧ w' = mkWorld (db w) (trace w ++ evs))
       ∨ (∃ comment,
            comments (db w) !! comment_id = Some comment
            ∧ let comment' := updated_comment_row comment data
                                is_blocked block_reason in
              res = inr (check_blocked_obj_content comment')
              ∧ w' = mkWorld
                       (mkDB (posts (db w))
                             (<[comment_id := comment']> (comments (db w))))
                       (trace w ++ evs))).
Proof.
  intros H. unfold update_comment in H. moderated H data w.
  unfold bind at 1, get_db in H. cbn [db] in H.
  destruct (comments (db w) !! comment_id) as [comment|] eqn:Hc;
    [|left; eexists; by inversion H].
  unfold_handlers H; unfold check_blocked_obj_content in *; cbn in H.
  destruct is_blocked; cbn in H; handler_cases;
    first [ by (left; eexists)
          | right; eexists; split_and!; done ].
Qed.

(** ** The cascade of a comment deletion *)

Lemma elem_of_replies_of table ids k :
  k ∈ replies_of table ids ↔ ∃ p, p ∈ ids ∧ is_reply table p k.
Proof.
  unfold replies_of, is_reply, has_parent_in. rewrite elem_of_dom.
  split.
  - intros [c Hc]. apply map_lookup_filter_Some in Hc as [Hc Hp].
    cbn in Hp. destruct (Comment.parent_id c) as [p|] eqn:Hpar; [|done].
    apply bool_decide_eq_true in Hp. eauto.
  - intros (p & Hp & c & Hc & Hpar). exists c.
    apply map_lookup_filter_Some. split; [done|]. cbn. rewrite Hpar.
    by apply bool_decide_eq_true.
Qed.

Lemma replies_of_dom table ids : replies_of table ids ⊆ dom table.
Proof. unfold replies_of. apply dom_filter_subseteq. Qed.

Lemma delete_cascade_grows fuel table ids :
  ids ⊆ delete_cascade fuel table ids.
Proof.
  revert ids. induction fuel as [|fuel IH]; intros ids; cbn; [done|].
  case_decide; [done|]. etrans; [|apply IH]. set_solver.
Qed.

(** Only descendants are reached. *)
Lemma delete_cascade_sound fuel table root ids :
  (∀ k, k ∈ ids → in_subtree table root k) →
  ∀ k, k ∈ delete_cascade fuel table ids → in_subtree table root k.
Proof.
  revert ids. induction fuel as [|fuel IH]; intros ids Hids k; cbn; [auto|].
  case_decide; [auto|]. apply IH. intros k' Hk'.
  apply elem_of_union in Hk' as [Hk'|Hk']; [auto|].
  apply elem_of_replies_of in Hk' as (p & Hp & Hr).
  eapply rtc_r; [by apply Hids | done].
Qed.

(** With fuel for every comment that can still be added, the rounds
    stop at a set that contains the replies of its members. *)
Lemma delete_cascade_closed fuel table ids (U : gset Z) :
  ids ⊆ U → dom table ⊆ U →
  (size U - size ids < fuel)%nat →
  let gone := delete_cascade fuel table ids in
  replies_of table gone ⊆ gone.
Proof.
  revert ids. induction fuel as [|fuel IH]; intros ids Hids Hdom Hfuel; [lia|].
  cbn. case_decide as Hfix.
  - rewrite <- Hfix at 2. apply union_subseteq_r.
  - assert (ids ∪ replies_of table ids ⊆ U) as Hle.
    { apply union_least; [done|].
      etrans; [apply replies_of_dom | done]. }
    apply IH; [done | done |].
    assert (ids ⊂ ids ∪ replies_of table ids) as Hlt.
    { split; [apply union_subseteq_l|]. intros Hsub. apply Hfix.
      apply leibniz_equiv, (anti_symm (⊆)); [done | apply union_subseteq_l]. }
    apply subset_size in Hlt. apply subseteq_size in Hle. lia.
Qed.

(** Every descendant is reached. *)
Lemma delete_cascade_complete table root c k :
  table !! root = Some c →
  in_subtree table root k →
  k ∈ delete_cascade (size table) table {[root]}.
Proof.
  intros Hroot Hk.
  assert (root ∈ dom table) as Hin by (apply elem_of_dom; eauto).
  pose proof (delete_cascade_closed (size table) table {[root]} (dom table))
    as Hclosed. cbn zeta in Hclosed.
  revert k Hk. apply rtc_ind_r.
  - apply delete_cascade_grows. set_solver.
  - intros k k' Hk Hr IH.
    apply Hclosed; [set_solver | done | |].
    + rewrite size_dom, size_singleton.
      destruct (decide (size table = 0%nat)) as [Hz|]; [|lia].
      apply map_size_empty_iff in Hz. by rewrite Hz, lookup_empty in Hroot.
    + apply elem_of_replies_of. eauto.
Qed.

(** ** Updates that go through, and fetches

    An update by the author of a stored row, with text the validators
    accept, is carried out: the row it writes has the verdict of the
    dependency. *)





(** ** The claims *)

(** C2. When every attempt to reach the model raises, that is the first
    call and each of the three retries, every one at the history the gate
    has reached by then, the gate calls the model these four times and
    no more, sleeps five seconds after each failure, and then returns
    [(True, "Error while AI text proceeds")] to its caller: no exception
    leaves it, and the database is untouched. What the model would answer
    to a fifth call does not matter. *)
Theorem moderation_fails_closed text w e1 e2 e3 e4 :
  generate_content (trace w) (text_proc text) = Raised e1 →
  generate_content (trace w ++ attempt_failed (text_proc text) e1)
    (text_proc text) = Raised e2 →
  generate_content
    (trace w ++ attempt_failed (text_proc text) e1
             ++ attempt_failed (text_proc text) e2)
    (text_proc text) = Raised e3 →
  generate_content
    (trace w ++ attempt_failed (text_proc text) e1
             ++ attempt_failed (text_proc text) e2
             ++ attempt_failed (text_proc text) e3)
    (text_proc text) = Raised e4 →
  moderate_content_with_ai text w
  = (inr (Some (true, "Error while AI text proceeds")),
     mkWorld (db w)
       (trace w
        ++ attempt_failed (text_proc text) e1
        ++ attempt_failed (text_proc text) e2
        ++ attempt_failed (text_proc text) e3
        ++ attempt_failed (text_proc text) e4
        ++ [EvPrint "Content has been blocked because of AI-moderation is not available"])).
Proof.
  intros H1 H2 H3 H4. unfold moderate_content_with_ai.
  set (tp := text_proc text) in *.
  unfold bind at 1.
  rewrite (while_no_response_raised 3 tp 0 w e1) by done.
  rewrite (while_no_response_raised 2 tp _ _ e2) by done.
  cbn [db trace]. rewrite app_trace.
  rewrite (while_no_response_raised 1 tp _ _ e3) by (cbn; done).
  cbn [db trace]. rewrite app_trace.
  rewrite (while_no_response_raised 0 tp _ _ e4)
    by (cbn; by rewrite <- ?app_assoc).
  cbn [db trace]. rewrite app_trace.
  rewrite while_no_response_done by lia.
  unfold bind, print, emit, ret. cbn [db trace].
  by rewrite <- !app_assoc.
Qed.

(** C8. The post listing returns exactly the stored posts with
    [is_blocked = False]; the comment listing of a post returns every
    stored comment of that post as it is stored, whatever its
    [is_blocked]. *)
Theorem listings_filter_posts_not_comments w :
  (∃ l, list_posts w = (inr l, w)
        ∧ ∀ p, p ∈ l ↔ (∃ k, posts (db w) !! k = Some p)
                       ∧ Post.is_blocked p = false)
  ∧ (∀ post_id,
       ∃ l, get_all_comments post_id w = (inr l, w)
            ∧ ∀ c, c ∈ l ↔ (∃ k, comments (db w) !! k = Some c)
                           ∧ Comment.post_id c = Some post_id).
Proof.
  assert (Hrows : ∀ A (table : gmap Z A) (a : A),
            a ∈ map snd (map_to_list table) ↔ ∃ k, table !! k = Some a).
  { intros A table a. rewrite list_elem_of_fmap. split.
    - intros ([k a'] & -> & Hin). exists k.
      by apply elem_of_map_to_list in Hin.
    - intros [k Hk]. exists (k, a). split; [done|].
      by apply elem_of_map_to_list. }
  split; [|intros post_id]; eexists; (split; [reflexivity|]); intros x;
    rewrite list_elem_of_filter, Hrows; tauto.
Qed.

(** C5. An authorised deletion of a stored comment succeeds and removes
    the comment together with every comment of its subtree (replies,
    replies of replies, and so on); every other comment and every post
    stays as it was; a comment without replies goes alone. *)
Theorem delete_comment_cascades comment_id current_user w comment :
  comments (db w) !! comment_id = Some comment →
  Comment.author_id comment = Some (User.id current_user)
  ∨ User.is_superuser current_user = true →
  ∃ w',
    delete_comment comment_id current_user w
    = (inr "Comment deleted successfully", w')
    ∧ posts (db w') = posts (db w)
    ∧ (∀ k, in_subtree (comments (db w)) comment_id k →
            comments (db w') !! k = None)
    ∧ (∀ k, ¬ in_subtree (comments (db w)) comment_id k →
            comments (db w') !! k = comments (db w) !! k)
    ∧ ((∀ k, ¬ is_reply (comments (db w)) comment_id k) →
       comments (db w') = delete comment_id (comments (db w))).
Proof.
  intros Hc Hauth. eexists. split.
  { unfold delete_comment, bind at 1, get_db. rewrite Hc.
    replace (negb (bool_decide (Comment.author_id comment
                                = Some (User.id current_user)))
             && negb (User.is_superuser current_user)) with false.
    - reflexivity.
    - destruct Hauth as [Ha|Ha].
      + by rewrite bool_decide_true.
      + rewrite Ha. by rewrite andb_false_r. }
  cbn [db posts comments].
  set (table := comments (db w)) in *.
  set (gone := delete_cascade (size table) table {[comment_id]}).
  assert (Hgone : ∀ k, k ∈ gone ↔ in_subtree table comment_id k).
  { intros k. split.
    - apply delete_cascade_sound. intros k' ->%elem_of_singleton.
      apply rtc_refl.
    - by apply (delete_cascade_complete table comment_id comment). }
  assert (Hin : ∀ k, in_subtree table comment_id k →
            filter (λ kc : Z * Comment.t, kc.1 ∉ gone) table !! k = None).
  { intros k Hk. apply map_lookup_filter_None. right. intros c _ Hn.
    apply Hn, Hgone, Hk. }
  assert (Hout : ∀ k, ¬ in_subtree table comment_id k →
            filter (λ kc : Z * Comment.t, kc.1 ∉ gone) table !! k
            = table !! k).
  { intros k Hk. destruct (table !! k) as [c|] eqn:Hl.
    - apply map_lookup_filter_Some. split; [done|]. cbn.
      by rewrite Hgone.
    - apply map_lookup_filter_None. by left. }
  split_and!; [done | done | done |].
  intros Hleaf. apply map_eq. intros k.
  destruct (decide (k = comment_id)) as [->|Hne].
  - rewrite lookup_delete_eq. apply Hin, rtc_refl.
  - rewrite lookup_delete_ne by done. apply Hout.
    intros Hk. apply rtc_inv in Hk as [->|(k' & Hr & _)]; [done|].
    by apply (Hleaf k').
Qed.

(** C3. A comment creation request enqueues either one task or none. It
    enqueues one exactly when it created a comment that is not blocked on
    a post whose [auto_reply_enabled] is true; that task carries the
    post's id and the comment's id, with countdown [reply_delay * 10]. *)
Theorem create_comment_enqueues post_id current_user data w res w' :
  create_comment post_id current_user data w = (res, w') →
  (∃ post c,
     posts (db w) !! post_id = Some post
     ∧ created w w' c
     ∧ Comment.is_blocked c = false
     ∧ Post.auto_reply_enabled post = true
     ∧ enqueued (new_events w w')
       = [(Post.id post, Comment.id c, Post.reply_delay post * 10)])
  ∨ (enqueued (new_events w w') = []
     ∧ ¬ ∃ post c,
         posts (db w) !! post_id = Some post
         ∧ created w w' c
         ∧ Comment.is_blocked c = false
         ∧ Post.auto_reply_enabled post = true).
Proof.
  intros H.
  apply create_comment_inv in H
    as (b & r & evs & _ & Hev & _ & [(e & -> & ->)|(post & c0 & Hpost & -> & Hok)]).
  - right. rewrite new_events_app. split; [by apply enqueued_gate|].
    intros (post & c & _ & [Hnew Hold] & _). cbn in Hold. congruence.
  - cbn zeta in Hok. destruct Hok as [-> ->].
    set (c := new_comment_row post_id current_user c0 b r (db w)) in *.
    rewrite new_events_app, enqueued_app, (enqueued_gate evs Hev).
    assert (Hc : ∀ c', created w
               (mkWorld (mkDB (posts (db w))
                           (<[Comment.id c := c]> (comments (db w))))
                  (trace w ++ evs ++
                     (if negb b && Post.auto_reply_enabled post
                      then [EvApplyAsync (Post.id post) (Comment.id c)
                              (Post.reply_delay post * 10)]
                      else []))) c'
               → c' = c).
    { intros c' [Hnew Hst]. cbn [db comments] in Hst.
      destruct (decide (Comment.id c = Comment.id c')) as [Heq|Hne].
      - rewrite Heq, lookup_insert_eq in Hst. congruence.
      - rewrite lookup_insert_ne in Hst by done. congruence. }
    destruct (negb b && Post.auto_reply_enabled post) eqn:Hcond.
    + left. apply andb_true_iff in Hcond as [Hb Hauto].
      apply negb_true_iff in Hb. subst b.
      exists post, c. split_and!; try done.
      split; [apply next_id_fresh | cbn [db comments]; apply lookup_insert_eq].
    + right. split; [done|].
      intros (post' & c' & Hpost' & Hcr & Hnb & Hauto).
      apply Hc in Hcr. subst c'. rewrite Hpost in Hpost'.
      injection Hpost' as <-. cbn in Hnb. subst b.
      by rewrite Hauto in Hcond.
Qed.



(** ** The block flag and its reason *)

Lemma flags_kept_refl d : flags_kept_or_paired d d.
Proof. split; intros k row Hrow; right; by exists row. Qed.

Lemma flags_insert_post d k p :
  has_reason p →
  flags_kept_or_paired d (mkDB (<[k := p]> (posts d)) (comments d)).
Proof.
  intros Hp. split; intros k' row Hrow; cbn in Hrow.
  - destruct (decide (k = k')) as [<-|Hne].
    + rewrite lookup_insert_eq in Hrow. injection Hrow as <-. by left.
    + rewrite lookup_insert_ne in Hrow by done. right. by exists row.
  - right. by exists row.
Qed.

Lemma flags_insert_comment d k c :
  has_reason c →
  flags_kept_or_paired d (mkDB (posts d) (<[k := c]> (comments d))).
Proof.
  intros Hc. split; intros k' row Hrow; cbn in Hrow.
  - right. by exists row.
  - destruct (decide (k = k')) as [<-|Hne].
    + rewrite lookup_insert_eq in Hrow. injection Hrow as <-. by left.
    + rewrite lookup_insert_ne in Hrow by done. right. by exists row.
Qed.

Lemma paired_has_reason {A} `{Blockable A} (row : A) :
  paired (obj_is_blocked row) (obj_block_reason row) → has_reason row.
Proof. unfold has_reason, paired. intros Hp Hb. by rewrite Hb in Hp. Qed.

Lemma delete_comment_flags comment_id current_user w :
  flags_kept_or_paired (db w) (db (delete_comment comment_id current_user w).2).
Proof.
  unfold delete_comment, bind at 1, get_db.
  destruct (comments (db w) !! comment_id); [|apply flags_kept_refl].
  destruct (_ && _); [apply flags_kept_refl|].
  cbn. split; intros k row Hrow; cbn in Hrow; right; exists row.
  - done.
  - apply map_lookup_filter_Some in Hrow as [Hrow _]. done.
Qed.

Lemma delete_post_flags post_id current_user w :
  flags_kept_or_paired (db w) (db (delete_post post_id current_user w).2).
Proof.
  unfold delete_post, bind at 1, get_db.
  destruct (posts (db w) !! post_id); [|apply flags_kept_refl].
  destruct (_ && _); [apply flags_kept_refl|].
  cbn. split; intros k row Hrow; cbn in Hrow; right.
  - exists row. split; [|done].
    destruct (decide (k = post_id)) as [->|Hne].
    + by rewrite lookup_delete_eq in Hrow.
    + by rewrite lookup_delete_ne in Hrow.
  - rewrite lookup_fmap in Hrow.
    destruct (comments (db w) !! k) as [c|]; [|done].
    injection Hrow as <-. exists c. split; [done|].
    unfold orphan. by case_decide.
Qed.

Lemma send_auto_reply_flags post_id comment_id w :
  flags_kept_or_paired (db w) (db (send_auto_reply post_id comment_id w).2).
Proof.
  unfold send_auto_reply, _send_auto_reply_async.
  destruct (try_except _ _ _ w) as [res w'] eqn:H. cbn [snd].
  unfold_handlers H. handler_cases;
    first [ apply flags_kept_refl
          | by apply flags_insert_comment ].
Qed.

(** The operations keep every row under its own id. *)
Lemma well_keyed_preserved op w :
  well_keyed (db w) → well_keyed (db (run op w)).
Proof.
  intros [Hposts Hcomments].
  assert (Hip : ∀ k p, Post.id p = k →
            well_keyed (mkDB (<[k := p]> (posts (db w))) (comments (db w)))).
  { intros k p Hk. split; [|done]. intros k' p' Hl. cbn in Hl.
    destruct (decide (k = k')) as [<-|Hne].
    - rewrite lookup_insert_eq in Hl. by injection Hl as <-.
    - rewrite lookup_insert_ne in Hl by done. eauto. }
  assert (Hic : ∀ k c, Comment.id c = k →
            well_keyed (mkDB (posts (db w)) (<[k := c]> (comments (db w))))).
  { intros k c Hk. split; [done|]. intros k' c' Hl. cbn in Hl.
    destruct (decide (k = k')) as [<-|Hne].
    - rewrite lookup_insert_eq in Hl. by injection Hl as <-.
    - rewrite lookup_insert_ne in Hl by done. eauto. }
  destruct op as [u data|i u data|i u|i u data|i u data|i u|i j]; cbn [run].
  - destruct (create_post u data w) as [res w'] eqn:H.
    apply create_post_inv in H
      as (b & r & evs & _ & _ & _ & [(e & _ & ->)|(p0 & _ & _ & ->)]);
      [done | by apply Hip].
  - destruct (update_post i u data w) as [res w'] eqn:H.
    apply update_post_inv in H
      as (b & r & evs & _ & _ & _ & [(e & _ & ->)|(p0 & Hp0 & _ & ->)]);
      [done|].
    apply Hip. destruct data; cbn; eauto.
  - unfold delete_post, bind at 1, get_db.
    destruct (posts (db w) !! i); [|done].
    destruct (_ && _); [done|]. cbn. split; intros k row Hl; cbn in Hl.
    + destruct (decide (k = i)) as [->|Hne].
      * by rewrite lookup_delete_eq in Hl.
      * rewrite lookup_delete_ne in Hl by done. eauto.
    + rewrite lookup_fmap in Hl.
      destruct (comments (db w) !! k) as [c|] eqn:Hc; [|done].
      injection Hl as <-. unfold orphan. case_decide; cbn; eauto.
  - destruct (create_comment i u data w) as [res w'] eqn:H.
    apply create_comment_inv in H
      as (b & r & evs & _ & _ & _ & [(e & _ & ->)|(p0 & c0 & _ & _ & _ & ->)]);
      [done | by apply Hic].
  - destruct (update_comment i u data w) as [res w'] eqn:H.
    apply update_comment_inv in H
      as (b & r & evs & _ & _ & _ & [(e & _ & ->)|(c & Hc & _ & ->)]);
      [done|].
    apply Hic. cbn. eauto.
  - unfold delete_comment, bind at 1, get_db.
    destruct (comments (db w) !! i); [|done].
    destruct (_ && _); [done|]. cbn. split; [done|]. intros k row Hl.
    cbn in Hl. apply map_lookup_filter_Some in Hl as [Hl _]. eauto.
  - unfold send_auto_reply, _send_auto_reply_async.
    destruct (try_except _ _ _ w) as [res w'] eqn:H. cbn [snd].
    unfold_handlers H. handler_cases; first [ done | by apply Hic ].
Qed.

(** C9. Whatever operation runs, every post and comment it leaves in the
    database either has the block flag and reason it had before, or has
    a non-empty reason if it is blocked: the rows that creation, update
    and auto-reply write are paired. Hence a database where every blocked
    row has a reason stays so. *)
Theorem blocked_has_reason_preserved op w :
  flags_kept_or_paired (db w) (db (run op w))
  ∧ (blocked_has_reason (db w) → blocked_has_reason (db (run op w))).
Proof.
  assert (Hflags : flags_kept_or_paired (db w) (db (run op w))).
  { destruct op as [u data|i u data|i u|i u data|i u data|i u|i j];
      cbn [run].
    - destruct (create_post u data w) as [res w'] eqn:H.
      apply create_post_inv in H
        as (b & r & evs & _ & _ & Hp & [(e & _ & ->)|(p0 & _ & _ & ->)]);
        [apply flags_kept_refl|].
      apply flags_insert_post. by apply paired_has_reason.
    - destruct (update_post i u data w) as [res w'] eqn:H.
      apply update_post_inv in H
        as (b & r & evs & _ & _ & Hp & [(e & _ & ->)|(p0 & _ & _ & ->)]);
        [apply flags_kept_refl|].
      apply flags_insert_post. apply paired_has_reason. by destruct data.
    - apply delete_post_flags.
    - destruct (create_comment i u data w) as [res w'] eqn:H.
      apply create_comment_inv in H
        as (b & r & evs & _ & _ & Hp & [(e & _ & ->)|(p0 & c0 & _ & _ & _ & ->)]);
        [apply flags_kept_refl|].
      apply flags_insert_comment. by apply paired_has_reason.
    - destruct (update_comment i u data w) as [res w'] eqn:H.
      apply update_comment_inv in H
        as (b & r & evs & _ & _ & Hp & [(e & _ & ->)|(c & _ & _ & ->)]);
        [apply flags_kept_refl|].
      apply flags_insert_comment. by apply paired_has_reason.
    - apply delete_comment_flags.
    - apply send_auto_reply_flags. }
  split; [done|]. intros [Hposts Hcomments].
  destruct Hflags as [Hp Hc]. split; intros k row Hrow.
  - destruct (Hp k row Hrow) as [?|(p & Hk & Hb & Hr)]; [done|].
    intros Hblocked. rewrite <- Hr. apply (Hposts k p Hk). by rewrite Hb.
  - destruct (Hc k row Hrow) as [?|(c & Hk & Hb & Hr)]; [done|].
    intros Hblocked. rewrite <- Hr. apply (Hcomments k c Hk). by rewrite Hb.
Qed.

(** C4, as the code has it. If the post or the comment is missing, the
    worker rolls back, prints a line, leaves the database as it was and
    returns. If both are stored under their ids and the model returns a
    reply that is not blank, the worker inserts one comment, under a
    key that was free, with the post's author as author, the post's id,
    the triggering comment's id as parent and the reply as content; it
    is stored unblocked, and the only call to the model is the one that
    asks for the reply. *)
Theorem auto_reply_worker post_id comment_id w :
  (posts (db w) !! post_id = None ∨ comments (db w) !! comment_id = None →
   _send_auto_reply_async post_id comment_id w
   = (inr tt,
      mkWorld (db w)
        (trace w ++ [EvRollback; EvPrint "Post or Comment not found"])))
  ∧ (∀ post comment reply,
       posts (db w) !! post_id = Some post →
       comments (db w) !! comment_id = Some comment →
       Post.id post = post_id →
       Comment.id comment = comment_id →
       generate_content (trace w) (reply_prompt post comment)
       = Returned reply →
       blank (text reply) = false →
       let c := Comment.mk (next_id (comments (db w)))
                  (Some (Post.id post)) (Some (Comment.id comment))
                  (text reply) (Some (Post.author_id post)) false "" in
       comments (db w) !! Comment.id c = None
       ∧ _send_auto_reply_async post_id comment_id w
         = (inr tt,
            mkWorld
              (mkDB (posts (db w))
                    (<[Comment.id c := c]> (comments (db w))))
              (trace w
               ++ [EvGenerate (reply_prompt post comment);
                   EvPrint ("Auto reply has been created: "
                            +:+ text reply)]))).
Proof.
  split.
  - intros Hmissing. unfold _send_auto_reply_async.
    unfold try_except, bind at 1, get_db, bind at 1, scalar_one.
    destruct (posts (db w) !! post_id) as [post|] eqn:Hpost.
    + destruct Hmissing as [?|Hc]; [done|].
      unfold ret at 1, bind at 1. rewrite Hc.
      unfold raise, bind, emit, print, emit. cbn [db trace].
      by rewrite <- app_assoc.
    + unfold raise, bind, emit, print, emit. cbn [db trace].
      by rewrite <- app_assoc.
  - intros post comment reply Hpost Hc <- <- Hgen Hblank c.
    split; [apply next_id_fresh|].
    unfold blank in Hblank.
    unfold _send_auto_reply_async.
    unfold try_except, bind at 1, get_db, bind at 1, scalar_one.
    rewrite Hpost. unfold ret at 1, bind at 1. rewrite Hc.
    unfold ret at 1, bind at 1.
    unfold generate_relevant_reply, bind at 1, model_generate_content.
    rewrite Hgen. unfold ret at 1, bind at 1.
    unfold Comment_init, bind at 1, validate_non_empty_string.
    rewrite Hblank. unfold ret at 1, ret at 1, bind at 1.
    unfold add_commit_comment, bind at 1, get_db. cbn [db trace posts comments Comment.post_id Comment.parent_id].
    rewrite Hpost, Hc.
    rewrite !bool_decide_true by eauto. cbn [andb].
    unfold bind, put_db, ret, print, emit. cbn [db trace].
    subst c. cbn [Comment.id Comment.content].
    by rewrite <- app_assoc.
Qed.

(** ** What the gate reads of a response, and what blank input does *)

(** When the model answers the first call, the verdict is read off the
    first candidate alone. *)
Lemma moderate_content_with_ai_first_candidate text w response :
  generate_content (trace w) (text_proc text) = Returned response →
  moderate_content_with_ai text w
  = (inr (match candidates response with
          | Some (candidate :: _) => for_candidates [candidate]
          | _ => Some (false, "")
          end),
     mkWorld (db w) (trace w ++ [EvGenerate (text_proc text)])).
Proof.
  intros Hgen. unfold moderate_content_with_ai, bind.
  rewrite (while_no_response_returned 3 _ 0 w response) by done.
  by destruct (candidates response) as [[|candidate cands]|].
Qed.

(** A post with a blank title or content is refused with 422 and
    nothing is stored. *)
Lemma create_post_blank_422 current_user p w :
  blank (PostCreate.title p) = true ∨ blank (PostCreate.content p) = true →
  ∃ detail w',
    create_post current_user (DPost p) w
    = (inl (HTTPException 422 detail), w')
    ∧ db w' = db w.
Proof.
  intros Hblank. unfold blank in Hblank.
  destruct (create_post current_user (DPost p) w) as [res w'] eqn:H.
  unfold create_post in H.
  destruct (moderate_content_returns (DPost p) w)
    as (b & r & evs & Hm & _ & _).
  unfold bind at 1 in H. rewrite Hm in H.
  unfold_handlers H.
  destruct Hblank as [Hb|Hb]; rewrite ?Hb in H; cbn in H;
    handler_cases; by do 2 eexists.
Qed.

(** A comment with blank content on a post that accepts comments: the
    [ValueError] of the constructor leaves the handler as it is, and
    nothing is stored. *)
Lemma create_comment_blank_raises post_id current_user post content w :
  posts (db w) !! post_id = Some post →
  Post.is_blocked post = false →
  blank content = true →
  ∃ w',
    create_comment post_id current_user
      (DComment (CommentCreate.mk content None)) w
    = (inl (ValueError "Content cannot be an empty string."), w')
    ∧ db w' = db w.
Proof.
  intros Hpost Hnb Hblank. unfold blank in Hblank.
  destruct (create_comment post_id current_user _ w) as [res w'] eqn:H.
  unfold create_comment in H.
  destruct (moderate_content_returns
              (DComment (CommentCreate.mk content None)) w)
    as (b & r & evs & Hm & _ & _).
  unfold bind at 1 in H. rewrite Hm in H.
  unfold bind at 1, get_db in H. cbn [db] in H. rewrite Hpost in H.
  unfold_handlers H. rewrite Hnb in H. cbn in H. rewrite Hblank in H.
  simplify_eq. by eexists.
Qed.

(** ** More on the moderation gate *)

Lemma model_calls_app evs evs' :
  model_calls (evs ++ evs') = model_calls evs ++ model_calls evs'.
Proof. apply omap_app. Qed.

(** The loop calls the model at least once and at most [4 - count]
    times, always with the same prompt. *)
Lemma while_no_response_calls fuel text_proc count w :
  count <= 3 →
  (Z.to_nat (4 - count) ≤ fuel)%nat →
  ∃ response evs n,
    while_no_response fuel text_proc count None w
    = (inr response, mkWorld (db w) (trace w ++ evs))
    ∧ Forall gate_event evs
    ∧ model_calls evs = replicate n text_proc
    ∧ (1 ≤ n ≤ Z.to_nat (4 - count))%nat.
Proof.
  revert count w. induction fuel as [|fuel IH]; intros count w Hc Hfuel; [lia|].
  destruct (generate_content (trace w) text_proc) as [r|e] eqn:He.
  - exists (Some r), [EvGenerate text_proc], 1%nat.
    rewrite (while_no_response_returned _ _ _ _ r) by done.
    split_and!; [done | repeat constructor | done | lia | lia].
  - rewrite (while_no_response_raised _ _ _ _ e) by done.
    destruct (decide (count + 1 <= 3)) as [Hc'|Hc'].
    + destruct (IH (count + 1) (mkWorld (db w)
                  (trace w ++ attempt_failed text_proc e)))
        as (resp & evs & n & Heq & Hev & Hcalls & Hn); [done | lia |].
      cbn [db trace] in Heq. rewrite <- app_assoc in Heq.
      exists resp, (attempt_failed text_proc e ++ evs), (S n).
      split_and!; [done | | | lia | lia].
      * apply Forall_app; split; [repeat constructor | done].
      * rewrite model_calls_app, Hcalls. done.
    + rewrite while_no_response_done by lia.
      exists None, (attempt_failed text_proc e), 1%nat.
      split_and!; [done | repeat constructor | done | lia | lia].
Qed.

(** The gate returns a verdict after one to four calls of the model
    with the prompt of the text. *)
Lemma moderate_content_with_ai_calls text w :
  ∃ is_blocked block_reason evs n,
    moderate_content_with_ai text w
    = (inr (Some (is_blocked, block_reason)),
       mkWorld (db w) (trace w ++ evs))
    ∧ paired is_blocked block_reason
    ∧ Forall gate_event evs
    ∧ model_calls evs = replicate n (text_proc text)
    ∧ (1 ≤ n ≤ 4)%nat.
Proof.
  unfold moderate_content_with_ai.
  destruct (while_no_response_calls 4 (text_proc text) 0 w)
    as (response & evs & n & Heq & Hev & Hcalls & Hn); [lia | lia |].
  unfold bind at 1. rewrite Heq.
  destruct response as [response|].
  - assert (∃ b r, (match candidates response with
                    | Some ((_ :: _) as cands) => for_candidates cands
                    | _ => Some (false, "")
                    end) = Some (b, r) ∧ paired b r) as (b & r & Hv & Hp).
    { destruct (candidates response) as [[|candidate cands]|];
        [by exists false, "" | | by exists false, ""].
      destruct (for_candidates (candidate :: cands)) as [[b r]|] eqn:Hf.
      - exists b, r. split; [done|]. by apply for_candidates_paired in Hf.
      - cbn in Hf. by destruct (for_ratings (safety_ratings candidate)). }
    exists b, r, evs, n.
    split_and!; [|done|done|done|lia|lia].
    destruct (candidates response) as [[|candidate cands]|];
      unfold ret; by rewrite <- Hv.
  - exists true, "Error while AI text proceeds",
      (evs ++ [EvPrint "Content has been blocked because of AI-moderation is not available"]), n.
    unfold bind, print, emit, ret. cbn [db trace]. rewrite <- app_assoc.
    split_and!; [done | done | | | lia | lia].
    + apply Forall_app; split; [done | repeat constructor].
    + by rewrite model_calls_app, Hcalls, app_nil_r.
Qed.

(** X1. Whatever the model does, the gate returns a verdict and raises
    nothing: a blocked verdict has a reason, a passing one has the empty
    reason. On the way it calls the model at least once and at most four
    times, each time with the prompt built from the text; it leaves the
    database alone and enqueues nothing. *)
Theorem gate_always_answers text w :
  ∃ is_blocked block_reason evs n,
    moderate_content_with_ai text w
    = (inr (Some (is_blocked, block_reason)),
       mkWorld (db w) (trace w ++ evs))
    ∧ paired is_blocked block_reason
    ∧ model_calls evs = replicate n (text_proc text)
    ∧ (1 ≤ n ≤ 4)%nat
    ∧ enqueued evs = [].
Proof.
  destruct (moderate_content_with_ai_calls text w)
    as (b & r & evs & n & Heq & Hp & Hev & Hcalls & Hn).
  exists b, r, evs, n. split_and!; [done | done | done | lia | lia |].
  by apply enqueued_gate.
Qed.

(** X2. For a post, the title is moderated first. A blocked title is the
    verdict of the whole request, and the model is never asked about the
    content; a title that passes hands over to the gate on the content,
    whose verdict is the verdict of the request. For a comment the
    verdict is the one on its content. In each case the model is asked
    one to four times about a text. *)
Theorem moderate_content_title_first w :
  (∀ p,
     ∃ title_blocked title_reason evs1 n,
       moderate_content_with_ai (PostCreate.title p) w
       = (inr (Some (title_blocked, title_reason)),
          mkWorld (db w) (trace w ++ evs1))
       ∧ model_calls evs1 = replicate n (text_proc (PostCreate.title p))
       ∧ (1 ≤ n ≤ 4)%nat
       ∧ if title_blocked then
           moderate_content (DPost p) w
           = (inr (DPost p, true, title_reason),
              mkWorld (db w) (trace w ++ evs1))
         else
           ∃ is_blocked block_reason evs2 m,
             moderate_content_with_ai (PostCreate.content p)
               (mkWorld (db w) (trace w ++ evs1))
             = (inr (Some (is_blocked, block_reason)),
                mkWorld (db w) (trace w ++ evs1 ++ evs2))
             ∧ moderate_content (DPost p) w
               = (inr (DPost p, is_blocked, block_reason),
                  mkWorld (db w) (trace w ++ evs1 ++ evs2))
             ∧ model_calls evs2
               = replicate m (text_proc (PostCreate.content p))
             ∧ (1 ≤ m ≤ 4)%nat)
  ∧ (∀ c,
       ∃ is_blocked block_reason evs n,
         moderate_content_with_ai (CommentCreate.content c) w
         = (inr (Some (is_blocked, block_reason)),
            mkWorld (db w) (trace w ++ evs))
         ∧ moderate_content (DComment c) w
           = (inr (DComment c, is_blocked, block_reason),
              mkWorld (db w) (trace w ++ evs))
         ∧ model_calls evs = replicate n (text_proc (CommentCreate.content c))
         ∧ (1 ≤ n ≤ 4)%nat).
Proof.
  split.
  - intros p.
    destruct (moderate_content_with_ai_calls (PostCreate.title p) w)
      as (b1 & r1 & evs1 & n & Ht & _ & _ & Hcalls & Hn).
    exists b1, r1, evs1, n. split_and!; [done | done | lia | lia |].
    destruct b1.
    + unfold moderate_content, bind. by rewrite Ht.
    + destruct (moderate_content_with_ai_calls (PostCreate.content p)
                  (mkWorld (db w) (trace w ++ evs1)))
        as (b & r & evs2 & m & Hc & _ & _ & Hcalls2 & Hm).
      cbn [db trace] in Hc. rewrite <- app_assoc in Hc.
      exists b, r, evs2, m. split_and!; [done | | done | lia | lia].
      unfold moderate_content, bind. rewrite Ht. cbn. by rewrite Hc.
  - intros c.
    destruct (moderate_content_with_ai_calls (CommentCreate.content c) w)
      as (b & r & evs & n & Hc & _ & _ & Hcalls & Hn).
    exists b, r, evs, n. split_and!; [done | | done | lia | lia].
    unfold moderate_content, bind. cbn. by rewrite Hc.
Qed.

(** ** Guards of the comment creation *)

Ltac refuse H data w :=
  let b := fresh "is_blocked" in
  let r := fresh "block_reason" in
  let evs := fresh "evs" in
  let Hm := fresh "Hm" in
  let Hev := fresh "Hev" in
  destruct (moderate_content_returns data w)
    as (b & r & evs & Hm & Hev & _);
  exists evs; split; [|done];
  unfold bind at 1; rewrite Hm.

Lemma create_comment_missing_post post_id current_user data w :
  posts (db w) !! post_id = None →
  refused (create_comment post_id current_user data w) w
    (HTTPException 404 "Post not found").
Proof.
  intros Hpost. unfold create_comment. refuse H data w.
  unfold bind, get_db. cbn [db]. by rewrite Hpost.
Qed.

(** X3. A comment for a post that does not exist is refused with 404
    "Post not found", whatever the body is; nothing is stored or
    enqueued. *)
Theorem create_comment_post_not_found post_id current_user data w :
  posts (db w) !! post_id = None →
  refused (create_comment post_id current_user data w) w
    (HTTPException 404 "Post not found").
Proof. apply create_comment_missing_post. Qed.

(** X4. A comment for a blocked post is refused with 403, whatever the
    body is, and before the parent is looked at; nothing is stored or
    enqueued. *)
Theorem create_comment_blocked_post post_id current_user data w post :
  posts (db w) !! post_id = Some post →
  Post.is_blocked post = true →
  refused (create_comment post_id current_user data w) w
    (HTTPException 403 "You cannot create a comment for blocked content.").
Proof.
  intros Hpost Hb. unfold create_comment. refuse H data w.
  unfold bind at 1, get_db. cbn [db]. rewrite Hpost.
  unfold bind at 1, check_post_blocked. by rewrite Hb.
Qed.

(** X5. A reply (a non-zero [parent_id]) on a post that accepts comments
    is refused with 404 when the parent comment does not exist and with
    403 when the parent is blocked; nothing is stored or enqueued. *)
Theorem create_comment_parent_guard post_id current_user content parent_id
    w post :
  posts (db w) !! post_id = Some post →
  Post.is_blocked post = false →
  parent_id ≠ 0 →
  let data := DComment (CommentCreate.mk content (Some parent_id)) in
  (comments (db w) !! parent_id = None →
   refused (create_comment post_id current_user data w) w
     (HTTPException 404 "Parent comment not found."))
  ∧ (∀ parent,
       comments (db w) !! parent_id = Some parent →
       Comment.is_blocked parent = true →
       refused (create_comment post_id current_user data w) w
         (HTTPException 403
            "You cannot create a comment for blocked content.")).
Proof.
  intros Hpost Hb Hp0 data.
  assert (Hnz : negb (parent_id =? 0) = true)
    by (apply negb_true_iff, Z.eqb_neq; done).
  split; [intros Hparent | intros parent Hparent Hpb].
  - unfold create_comment. refuse H data w.
    unfold bind at 1, get_db. cbn [db]. rewrite Hpost.
    unfold bind at 1, check_post_blocked. rewrite Hb.
    unfold ret at 1, bind at 1. cbn [get_parent_id data]. unfold ret at 1.
    unfold bind at 1. cbn [CommentCreate.parent_id]. rewrite Hnz.
    unfold check_parent_comment_blocked, bind at 1, get_db. cbn [db].
    by rewrite Hparent.
  - unfold create_comment. refuse H data w.
    unfold bind at 1, get_db. cbn [db]. rewrite Hpost.
    unfold bind at 1, check_post_blocked. rewrite Hb.
    unfold ret at 1, bind at 1. cbn [get_parent_id data]. unfold ret at 1.
    unfold bind at 1. cbn [CommentCreate.parent_id]. rewrite Hnz.
    unfold check_parent_comment_blocked, bind at 1, get_db. cbn [db].
    rewrite Hparent, Hpb. done.
Qed.

(** X6. The parent of a reply is only required to exist and not to be
    blocked: a reply whose parent belongs to another post is created all
    the same, on the post of the request and under that parent. *)
Theorem create_comment_parent_on_other_post post_id current_user content
    parent_id w post parent :
  posts (db w) !! post_id = Some post →
  Post.is_blocked post = false →
  parent_id ≠ 0 →
  comments (db w) !! parent_id = Some parent →
  Comment.is_blocked parent = false →
  Comment.post_id parent ≠ Some post_id →
  blank content = false →
  ∃ resp w' c,
    create_comment post_id current_user
      (DComment (CommentCreate.mk content (Some parent_id))) w
    = (inr resp, w')
    ∧ created w w' c
    ∧ Comment.post_id c = Some post_id
    ∧ Comment.parent_id c = Some parent_id
    ∧ Comment.content c = content.
Proof.
  intros Hpost Hb Hp0 Hparent Hpb _ Hblank. unfold blank in Hblank.
  assert (Hnz : negb (parent_id =? 0) = true)
    by (apply negb_true_iff, Z.eqb_neq; done).
  destruct (create_comment post_id current_user _ w) as [res w'] eqn:H.
  pose proof H as H'.
  apply create_comment_inv in H'
    as (b & r & evs & Hm & _ & _ & [(e & -> & ->)|(post' & c0 & _ & Hd & Hres & ->)]).
  - exfalso. unfold create_comment in H. unfold bind at 1 in H.
    rewrite Hm in H. unfold bind at 1, get_db in H. cbn [db] in H.
    rewrite Hpost in H. unfold_handlers H. rewrite Hb in H. cbn in H.
    repeat (first [ rewrite Hnz in H | rewrite Hparent in H
                  | rewrite Hpb in H | rewrite Hblank in H
                  | rewrite Hpost in H
                  | rewrite bool_decide_true in H by eauto ];
            cbn in H).
    destruct b; cbn in H; handler_cases; simplify_eq.
  - injection Hd as <-. cbn zeta in Hres. subst res.
    eexists _, _, (new_comment_row post_id current_user
                     (CommentCreate.mk content (Some parent_id)) b r (db w)).
    split_and!; [reflexivity | | done..].
    split; [apply next_id_fresh | cbn [db comments]; apply lookup_insert_eq].
Qed.

(** ** Who may update and delete *)

Lemma refused_here {A} (res : Exception + A) w e :
  res = inl e → refused (res, w) w e.
Proof. intros ->. exists []. rewrite app_nil_r. by destruct w. Qed.

Lemma filter_none {A} (P : A → Prop) `{∀ x, Decision (P x)} (l : list A) :
  (∀ x, x ∈ l → ¬ P x) → filter P l = [].
Proof.
  intros Hl. destruct (filter P l) as [|x l'] eqn:Hf; [done|].
  assert (x ∈ filter P l) as Hx by (rewrite Hf; left).
  apply list_elem_of_filter in Hx as [HP Hin]. by destruct (Hl x Hin).
Qed.

(** X7. Only the author updates a post: for anyone else, superuser or
    not, the update is refused with 403 and nothing changes. Deleting is
    refused with 403 for someone who is neither the author nor a
    superuser; a superuser deletes the post of another user. *)
Theorem post_of_another_user post_id current_user w post :
  posts (db w) !! post_id = Some post →
  Post.author_id post ≠ User.id current_user →
  (∀ data,
     refused (update_post post_id current_user data w) w
       (HTTPException 403 "Not authorized to update this post"))
  ∧ (User.is_superuser current_user = false →
     refused (delete_post post_id current_user w) w
       (HTTPException 403 "Not authorized to delete this post"))
  ∧ (User.is_superuser current_user = true →
     ∃ w', delete_post post_id current_user w
           = (inr "Post deleted successfully", w')
           ∧ posts (db w') = delete post_id (posts (db w))).
Proof.
  intros Hpost Hauth.
  assert (Hna : bool_decide (Post.author_id post = User.id current_user)
                = false) by (by apply bool_decide_eq_false).
  split_and!.
  - intros data. unfold update_post. refuse H data w.
    unfold bind at 1, get_db. cbn [db]. rewrite Hpost, Hna. done.
  - intros Hsu. unfold delete_post, bind, get_db.
    rewrite Hpost, Hna, Hsu. cbn. by apply refused_here.
  - intros Hsu. unfold delete_post, bind, get_db.
    rewrite Hpost, Hna, Hsu. cbn. by eexists.
Qed.

(** X8. Only the author updates a comment: for anyone else, superuser or
    not, and also when the comment has no author, the update is refused
    with 403 and nothing changes. Deleting is refused with 403 for someone
    who is neither the author nor a superuser. *)
Theorem comment_of_another_user comment_id current_user w comment :
  comments (db w) !! comment_id = Some comment →
  Comment.author_id comment ≠ Some (User.id current_user) →
  (∀ data,
     refused (update_comment comment_id current_user data w) w
       (HTTPException 403 "Not authorized to update this comment"))
  ∧ (User.is_superuser current_user = false →
     refused (delete_comment comment_id current_user w) w
       (HTTPException 403 "Not authorized to delete this comment")).
Proof.
  intros Hc Hauth.
  assert (Hna : bool_decide (Comment.author_id comment
                             = Some (User.id current_user)) = false)
    by (by apply bool_decide_eq_false).
  split.
  - intros data. unfold update_comment. refuse H data w.
    unfold bind at 1, get_db. cbn [db]. rewrite Hc, Hna. done.
  - intros Hsu. unfold delete_comment, bind, get_db.
    rewrite Hc, Hna, Hsu. cbn. by apply refused_here.
Qed.

(** X9. After the author or a superuser deleted a post, the post cannot
    be fetched (404), no comment can be created on it (404), its comment
    listing is empty, and every other post is as it was. No comment row
    is removed. *)
Theorem delete_post_then post_id current_user w post :
  posts (db w) !! post_id = Some post →
  Post.author_id post = User.id current_user
  ∨ User.is_superuser current_user = true →
  ∃ w',
    delete_post post_id current_user w
    = (inr "Post deleted successfully", w')
    ∧ get_post post_id w' = (inl (HTTPException 404 "Post not found"), w')
    ∧ get_all_comments post_id w' = (inr [], w')
    ∧ (∀ u data,
         refused (create_comment post_id u data w') w'
           (HTTPException 404 "Post not found"))
    ∧ (∀ k, k ≠ post_id → posts (db w') !! k = posts (db w) !! k)
    ∧ dom (comments (db w')) = dom (comments (db w)).
Proof.
  intros Hpost Hauth. eexists. split.
  { unfold delete_post, bind at 1, get_db. rewrite Hpost.
    replace (negb (bool_decide (Post.author_id post = User.id current_user))
             && negb (User.is_superuser current_user)) with false.
    - reflexivity.
    - destruct Hauth as [Ha|Ha].
      + by rewrite bool_decide_true.
      + rewrite Ha. by rewrite andb_false_r. }
  set (w' := mkWorld _ _).
  assert (Hgone : posts (db w') !! post_id = None)
    by (cbn; apply lookup_delete_eq).
  split_and!.
  - unfold get_post, bind, get_db. by rewrite Hgone.
  - unfold get_all_comments, bind, get_db, ret. f_equal. f_equal.
    apply filter_none. intros c Hin.
    apply list_elem_of_fmap in Hin as ([k c'] & -> & Hin).
    apply elem_of_map_to_list in Hin. cbn in Hin.
    rewrite lookup_fmap in Hin.
    destruct (comments (db w) !! k) as [c0|]; [|done].
    injection Hin as <-. cbn. unfold orphan. by case_decide.
  - intros u data. by apply create_comment_missing_post.
  - intros k Hk. cbn. by rewrite lookup_delete_ne.
  - cbn. apply dom_fmap_L.
Qed.

(** ** Writing, then reading *)

Lemma elem_of_rows {A} (table : gmap Z A) (a : A) :
  a ∈ map snd (map_to_list table) ↔ ∃ k, table !! k = Some a.
Proof.
  rewrite list_elem_of_fmap. split.
  - intros ([k a'] & -> & Hin). exists k. by apply elem_of_map_to_list in Hin.
  - intros [k Hk]. exists (k, a). split; [done|]. by apply elem_of_map_to_list.
Qed.

(** X10. A post creation that goes through stores the title and content
    exactly as submitted (nothing is trimmed), with the current user as
    author and the defaults [False] and [0] for the auto-reply fields the
    request left out. The row can then be fetched by its id, blocked or
    not, but the listing shows it only when it is not blocked. *)
Theorem create_post_then_read current_user data w resp w' :
  create_post current_user data w = (inr resp, w') →
  ∃ p0 p l,
    data = DPost p0
    ∧ get_post (Post.id p) w' = (inr p, w')
    ∧ posts (db w) !! Post.id p = None
    ∧ Post.title p = PostCreate.title p0
    ∧ Post.content p = PostCreate.content p0
    ∧ Post.author_id p = User.id current_user
    ∧ Post.auto_reply_enabled p
      = default false (PostCreate.auto_reply_enabled p0)
    ∧ Post.reply_delay p = default 0 (PostCreate.reply_delay p0)
    ∧ list_posts w' = (inr l, w')
    ∧ (p ∈ l ↔ Post.is_blocked p = false).
Proof.
  intros H.
  apply create_post_inv in H
    as (b & r & evs & _ & _ & _ & [(e & ? & _)|(p0 & -> & _ & ->)]); [done|].
  set (p := new_post_row current_user p0 b r (db w)).
  eexists p0, p, _. split_and!; try done.
  - unfold get_post, bind, get_db. cbn [db posts].
    by rewrite lookup_insert_eq.
  - apply next_id_fresh.
  - rewrite list_elem_of_filter, elem_of_rows. split; [tauto|].
    intros Hb. split; [done|]. exists (Post.id p). cbn [db posts].
    apply lookup_insert_eq.
Qed.

(** X11. A comment creation that goes through stores the content exactly
    as submitted, on the post of the request, with the current user as
    author. The row can then be fetched by its id and is in the listing of
    the post, blocked or not. *)
Theorem create_comment_then_read post_id current_user data w resp w' :
  create_comment post_id current_user data w = (inr resp, w') →
  ∃ c0 c l,
    data = DComment c0
    ∧ get_comment (Comment.id c) w' = (inr c, w')
    ∧ comments (db w) !! Comment.id c = None
    ∧ Comment.content c = CommentCreate.content c0
    ∧ Comment.parent_id c = CommentCreate.parent_id c0
    ∧ Comment.post_id c = Some post_id
    ∧ Comment.author_id c = Some (User.id current_user)
    ∧ get_all_comments post_id w' = (inr l, w')
    ∧ c ∈ l.
Proof.
  intros H.
  apply create_comment_inv in H
    as (b & r & evs & _ & _ & _
        & [(e & ? & _)|(post & c0 & _ & -> & _ & ->)]); [done|].
  set (c := new_comment_row post_id current_user c0 b r (db w)).
  eexists c0, c, _. split_and!; try done.
  - unfold get_comment, bind, get_db. cbn [db comments].
    by rewrite lookup_insert_eq.
  - apply next_id_fresh.
  - rewrite list_elem_of_filter, elem_of_rows. split; [done|].
    exists (Comment.id c). cbn [db comments]. apply lookup_insert_eq.
Qed.

(** X12. After an authorised deletion of a comment, the comment cannot
    be fetched (404), and no comment that is left is a reply to a comment
    that was removed: the parent of a remaining reply, if it was stored
    before, is stored still. *)
Theorem delete_comment_leaves_no_orphan comment_id current_user w comment :
  comments (db w) !! comment_id = Some comment →
  Comment.author_id comment = Some (User.id current_user)
  ∨ User.is_superuser current_user = true →
  ∃ w',
    delete_comment comment_id current_user w
    = (inr "Comment deleted successfully", w')
    ∧ get_comment comment_id w'
      = (inl (HTTPException 404 "Comment not found"), w')
    ∧ (∀ k c p,
         comments (db w') !! k = Some c →
         Comment.parent_id c = Some p →
         comments (db w') !! p = comments (db w) !! p).
Proof.
  intros Hc Hauth. eexists. split.
  { unfold delete_comment, bind at 1, get_db. rewrite Hc.
    replace (negb (bool_decide (Comment.author_id comment
                                = Some (User.id current_user)))
             && negb (User.is_superuser current_user)) with false.
    - reflexivity.
    - destruct Hauth as [Ha|Ha].
      + by rewrite bool_decide_true.
      + rewrite Ha. by rewrite andb_false_r. }
  cbn [db posts comments].
  set (table := comments (db w)) in *.
  set (gone := delete_cascade (size table) table {[comment_id]}).
  assert (Hroot : comment_id ∈ gone).
  { apply delete_cascade_grows. by apply elem_of_singleton. }
  assert (Hclosed : replies_of table gone ⊆ gone).
  { apply (delete_cascade_closed (size table) table {[comment_id]}
             (dom table)).
    - apply singleton_subseteq_l, elem_of_dom. eauto.
    - done.
    - rewrite size_dom, size_singleton.
      destruct (decide (size table = 0%nat)) as [Hz|]; [|lia].
      apply map_size_empty_iff in Hz. by rewrite Hz, lookup_empty in Hc. }
  split.
  - unfold get_comment, bind, get_db. cbn [db comments].
    rewrite (proj2 (map_lookup_filter_None _ table comment_id)); [done|].
    right. intros c _ Hn. by apply Hn.
  - intros k c p Hk Hp.
    apply map_lookup_filter_Some in Hk as [Hk Hkeep]. cbn in Hkeep.
    assert (p ∉ gone) as Hpn.
    { intros Hpg. apply Hkeep, Hclosed, elem_of_replies_of.
      exists p. split; [done|]. by exists c. }
    destruct (table !! p) as [cp|] eqn:Hl.
    + apply map_lookup_filter_Some. by split.
    + apply map_lookup_filter_None. by left.
Qed.

(** ** The validator *)

Lemma lstrip_empty s : Py.lstrip s = "" ↔ all_space s = true.
Proof.
  induction s as [|c s IH]; cbn; [done|].
  destruct (Py.isspace c); cbn; [done|]. split; discriminate.
Qed.

Lemma lstrip_head s c s' : Py.lstrip s = String c s' → Py.isspace c = false.
Proof.
  induction s as [|c0 s IH]; cbn; [done|].
  destruct (Py.isspace c0) eqn:Hc; [done|]. by intros [= <- _].
Qed.

Lemma all_space_rev_app s acc :
  all_space (String.rev_app s acc) = all_space s && all_space acc.
Proof.
  revert acc. induction s as [|c s IH]; intros acc; cbn; [done|].
  rewrite IH. cbn. destruct (Py.isspace c), (all_space s); done.
Qed.

Lemma rev_app_empty s acc : String.rev_app s acc = "" → s = "" ∧ acc = "".
Proof.
  revert acc. induction s as [|c s IH]; intros acc; cbn; [done|].
  intros H. by destruct (IH _ H) as [_ ?].
Qed.

Lemma blank_all_space s : blank s = all_space s.
Proof.
  unfold blank, Py.strip, Py.rstrip, String.rev.
  destruct (all_space s) eqn:Hs.
  - apply lstrip_empty in Hs. rewrite Hs. cbn. apply orb_true_r.
  - apply orb_false_iff. split.
    + apply String.eqb_neq. by intros ->.
    + apply String.eqb_neq. intros Hrev.
      apply rev_app_empty in Hrev as [Hrev _].
      apply lstrip_empty in Hrev.
      rewrite all_space_rev_app in Hrev. cbn in Hrev.
      rewrite andb_true_r in Hrev. apply lstrip_empty in Hrev.
      destruct (Py.lstrip s) as [|c t] eqn:Hl.
      * apply lstrip_empty in Hl. congruence.
      * apply lstrip_head in Hl. cbn in Hrev. by rewrite Hl in Hrev.
Qed.

(** X13. The validator of titles and contents rejects exactly the strings
    made of white space only (the empty string among them), with the
    message that names the field; any other string is returned as it is,
    inner and outer spaces included. *)
Theorem validate_non_empty_string_spec key value w :
  validate_non_empty_string key value w
  = if all_space value
    then (inl (ValueError (Py.capitalize key
                           +:+ " cannot be an empty string.")), w)
    else (inr value, w).
Proof.
  unfold validate_non_empty_string. fold (blank value).
  rewrite blank_all_space. by destruct (all_space value).
Qed.

(** ** Updates *)

Lemma update_post_by_author post_id current_user data w resp w' post :
  update_post post_id current_user data w = (inr resp, w') →
  posts (db w) !! post_id = Some post →
  Post.author_id post = User.id current_user.
Proof.
  intros H Hpost.
  destruct (decide (Post.author_id post = User.id current_user)); [done|].
  exfalso. unfold update_post in H.
  destruct (moderate_content_returns data w) as (b & r & evs & Hm & _ & _).
  unfold bind at 1 in H. rewrite Hm in H.
  unfold bind at 1, get_db in H. cbn [db] in H. rewrite Hpost in H.
  by rewrite bool_decide_false in H.
Qed.

Lemma update_comment_by_author comment_id current_user data w resp w'
    comment :
  update_comment comment_id current_user data w = (inr resp, w') →
  comments (db w) !! comment_id = Some comment →
  Comment.author_id comment = Some (User.id current_user).
Proof.
  intros H Hc.
  destruct (decide (Comment.author_id comment
                    = Some (User.id current_user))); [done|].
  exfalso. unfold update_comment in H.
  destruct (moderate_content_returns data w) as (b & r & evs & Hm & _ & _).
  unfold bind at 1 in H. rewrite Hm in H.
  unfold bind at 1, get_db in H. cbn [db] in H. rewrite Hc in H.
  by rewrite bool_decide_false in H.
Qed.

(** X14. An update of a post that goes through was asked by its author
    and rewrites that one row: the id and the author stay, the title and
    content are the submitted ones, and an auto-reply field the request
    left out keeps its value. Every other post and every comment is as it
    was, and nothing is enqueued. *)
Theorem update_post_rewrites_one_row post_id current_user p0 w resp w' :
  update_post post_id current_user (DPost p0) w = (inr resp, w') →
  ∃ post post',
    posts (db w) !! post_id = Some post
    ∧ posts (db w') !! post_id = Some post'
    ∧ Post.author_id post = User.id current_user
    ∧ Post.id post' = Post.id post
    ∧ Post.author_id post' = Post.author_id post
    ∧ Post.title post' = PostCreate.title p0
    ∧ Post.content post' = PostCreate.content p0
    ∧ Post.auto_reply_enabled post'
      = default (Post.auto_reply_enabled post)
          (PostCreate.auto_reply_enabled p0)
    ∧ Post.reply_delay post'
      = default (Post.reply_delay post) (PostCreate.reply_delay p0)
    ∧ (∀ k, k ≠ post_id → posts (db w') !! k = posts (db w) !! k)
    ∧ comments (db w') = comments (db w)
    ∧ enqueued (new_events w w') = [].
Proof.
  intros H. pose proof H as H'.
  apply update_post_inv in H'
    as (b & r & evs & _ & Hev & _ & [(e & ? & _)|(post & Hpost & _ & ->)]);
    [done|].
  exists post, (updated_post_row post (DPost p0) b r).
  split_and!; try done.
  - cbn [db posts]. apply lookup_insert_eq.
  - by apply (update_post_by_author _ _ _ _ _ _ _ H).
  - intros k Hk. cbn [db posts]. by rewrite lookup_insert_ne.
  - rewrite new_events_app. by apply enqueued_gate.
Qed.

(** X15. An update of a comment that goes through was asked by its author
    and rewrites that one row: id, post, parent and author stay, the
    content is the submitted one. Every other comment and every post is as
    it was, and no auto-reply is enqueued for an updated comment. *)
Theorem update_comment_rewrites_one_row comment_id current_user data w
    resp w' :
  update_comment comment_id current_user data w = (inr resp, w') →
  ∃ comment comment',
    comments (db w) !! comment_id = Some comment
    ∧ comments (db w') !! comment_id = Some comment'
    ∧ Comment.author_id comment = Some (User.id current_user)
    ∧ Comment.id comment' = Comment.id comment
    ∧ Comment.post_id comment' = Comment.post_id comment
    ∧ Comment.parent_id comment' = Comment.parent_id comment
    ∧ Comment.author_id comment' = Comment.author_id comment
    ∧ Comment.content comment' = data_content data
    ∧ (∀ k, k ≠ comment_id →
            comments (db w') !! k = comments (db w) !! k)
    ∧ posts (db w') = posts (db w)
    ∧ enqueued (new_events w w') = [].
Proof.
  intros H. pose proof H as H'.
  apply update_comment_inv in H'
    as (b & r & evs & _ & Hev & _ & [(e & ? & _)|(c & Hc & _ & ->)]);
    [done|].
  exists c, (updated_comment_row c data b r).
  split_and!; try done.
  - cbn [db comments]. apply lookup_insert_eq.
  - by apply (update_comment_by_author _ _ _ _ _ _ _ H).
  - intros k Hk. cbn [db comments]. by rewrite lookup_insert_ne.
  - rewrite new_events_app. by apply enqueued_gate.
Qed.

(** X16. Blank text in an update by the author. For a post, a blank title
    or content is refused with 422 and the validator's message. For a
    comment, the [ValueError] of the validator leaves the handler as it is
    (a 500 for the client). In both cases nothing changes. *)
Theorem update_with_blank_text id current_user w :
  (∀ post p0,
     posts (db w) !! id = Some post →
     Post.author_id post = User.id current_user →
     blank (PostCreate.title p0) = true
     ∨ blank (PostCreate.content p0) = true →
     ∃ detail,
       refused (update_post id current_user (DPost p0) w) w
         (HTTPException 422 detail)
       ∧ (detail = "Title cannot be an empty string."
          ∨ detail = "Content cannot be an empty string."))
  ∧ (∀ comment data,
       comments (db w) !! id = Some comment →
       Comment.author_id comment = Some (User.id current_user) →
       blank (data_content data) = true →
       refused (update_comment id current_user data w) w
         (ValueError "Content cannot be an empty string.")
       ∧ http_status (ValueError "Content cannot be an empty string.")
         = 500).
Proof.
  split.
  - intros post p0 Hpost Hauth Hblank. unfold blank in Hblank.
    destruct (update_post id current_user (DPost p0) w) as [res w'] eqn:H.
    unfold update_post in H.
    destruct (moderate_content_returns (DPost p0) w)
      as (b & r & evs & Hm & Hev & _).
    unfold bind at 1 in H. rewrite Hm in H.
    unfold bind at 1, get_db in H. cbn [db] in H. rewrite Hpost in H.
    rewrite bool_decide_true in H by done. cbn [negb] in H.
    unfold_handlers H.
    destruct Hblank as [Hb|Hb]; rewrite ?Hb in H; cbn in H;
      handler_cases; eexists; (split; [by exists evs|]); auto.
  - intros comment data Hc Hauth Hblank. unfold blank in Hblank.
    split; [|done].
    destruct (update_comment id current_user data w) as [res w'] eqn:H.
    unfold update_comment in H.
    destruct (moderate_content_returns data w)
      as (b & r & evs & Hm & Hev & _).
    unfold bind at 1 in H. rewrite Hm in H.
    unfold bind at 1, get_db in H. cbn [db] in H. rewrite Hc in H.
    rewrite bool_decide_true in H by done. cbn [negb] in H.
    unfold_handlers H. rewrite Hblank in H. simplify_eq.
    by exists evs.
Qed.

(** ** More on the auto-reply worker *)

(** The run of the worker when post and comment are there and the model
    returns a reply that passes the validator. *)
Lemma worker_inserts post_id comment_id w post comment reply :
  posts (db w) !! post_id = Some post →
  comments (db w) !! comment_id = Some comment →
  Post.id post = post_id →
  Comment.id comment = comment_id →
  generate_content (trace w) (reply_prompt post comment) = Returned reply →
  blank (text reply) = false →
  _send_auto_reply_async post_id comment_id w
  = (inr tt,
     mkWorld
       (mkDB (posts (db w))
          (<[next_id (comments (db w)) :=
               Comment.mk (next_id (comments (db w))) (Some post_id)
                 (Some comment_id) (text reply) (Some (Post.author_id post))
                 false ""]> (comments (db w))))
       (trace w
        ++ [EvGenerate (reply_prompt post comment);
            EvPrint ("Auto reply has been created: " +:+ text reply)])).
Proof.
  intros Hpost Hc <- <- Hgen Hblank. unfold blank in Hblank.
  unfold _send_auto_reply_async.
  unfold try_except, bind at 1, get_db, bind at 1, scalar_one.
  rewrite Hpost. unfold ret at 1, bind at 1. rewrite Hc.
  unfold ret at 1, bind at 1.
  unfold generate_relevant_reply, bind at 1, model_generate_content.
  rewrite Hgen. unfold ret at 1, bind at 1.
  unfold Comment_init, bind at 1, validate_non_empty_string.
  rewrite Hblank. unfold ret at 1, ret at 1, bind at 1.
  unfold add_commit_comment, bind at 1, get_db.
  cbn [db trace posts comments Comment.post_id Comment.parent_id].
  rewrite Hpost, Hc.
  rewrite !bool_decide_true by eauto. cbn [andb].
  unfold bind, put_db, ret, print, emit. cbn [db trace].
  cbn [Comment.id Comment.content].
  by rewrite <- app_assoc.
Qed.

(** X17. Whatever happens in the worker, it enqueues no task (an
    auto-reply never triggers another one), calls the model at most once,
    leaves every post and every stored comment as it was, and stores
    nothing when it ends with an exception. *)
Theorem auto_reply_worker_is_contained post_id comment_id w res w' :
  _send_auto_reply_async post_id comment_id w = (res, w') →
  enqueued (new_events w w') = []
  ∧ (length (model_calls (new_events w w')) ≤ 1)%nat
  ∧ posts (db w') = posts (db w)
  ∧ (∀ k c, comments (db w) !! k = Some c → comments (db w') !! k = Some c)
  ∧ (∀ e, res = inl e → db w' = db w).
Proof.
  intros H. unfold _send_auto_reply_async in H. unfold_handlers H.
  assert (Hkeep : ∀ (new : Comment.t) k c,
            comments (db w) !! k = Some c →
            <[next_id (comments (db w)) := new]> (comments (db w)) !! k
            = Some c).
  { intros new k c Hk. rewrite lookup_insert_ne; [done|].
    intros <-. by rewrite next_id_fresh in Hk. }
  destruct w as [d t]. cbn [db trace] in *.
  handler_cases; unfold new_events; cbn [db trace posts comments];
    rewrite <- ?app_assoc, ?drop_app_length;
    split_and!; try done; try (cbn; lia); auto.
Qed.

(** X18. With the post and the comment there, a model that raises makes
    the worker raise: only [NoResultFound] is caught. The same holds for
    the validator's [ValueError] on a blank reply. Nothing is stored,
    rolled back or printed. *)
Theorem auto_reply_worker_lets_errors_out post_id comment_id w post comment :
  posts (db w) !! post_id = Some post →
  comments (db w) !! comment_id = Some comment →
  let after_call :=
    mkWorld (db w) (trace w ++ [EvGenerate (reply_prompt post comment)]) in
  (∀ e,
     generate_content (trace w) (reply_prompt post comment) = Raised e →
     _send_auto_reply_async post_id comment_id w
     = (inl (ServiceError e), after_call))
  ∧ (∀ reply,
       generate_content (trace w) (reply_prompt post comment)
       = Returned reply →
       blank (text reply) = true →
       _send_auto_reply_async post_id comment_id w
       = (inl (ValueError "Content cannot be an empty string."),
          after_call)).
Proof.
  intros Hpost Hc after_call. split.
  - intros e Hgen. unfold _send_auto_reply_async.
    unfold try_except, bind at 1, get_db, bind at 1, scalar_one.
    rewrite Hpost. unfold ret at 1, bind at 1. rewrite Hc.
    unfold ret at 1, bind at 1.
    unfold generate_relevant_reply, bind at 1, model_generate_content.
    by rewrite Hgen.
  - intros reply Hgen Hblank. unfold blank in Hblank.
    unfold _send_auto_reply_async.
    unfold try_except, bind at 1, get_db, bind at 1, scalar_one.
    rewrite Hpost. unfold ret at 1, bind at 1. rewrite Hc.
    unfold ret at 1, bind at 1.
    unfold generate_relevant_reply, bind at 1, model_generate_content.
    rewrite Hgen. unfold ret at 1, bind at 1.
    unfold Comment_init, bind at 1, validate_non_empty_string.
    by rewrite Hblank.
Qed.

(** X19. Creation and worker together. When a comment is created
    unblocked on a post with auto-reply, stored under its id, the task
    that was enqueued names that post and that comment; run on the world
    the request left, with a model that returns a reply that is not
    blank, it stores one reply to the new comment, on the same post, by
    the post's author, unblocked. The listing of the post then has both
    the comment and the reply. *)
Theorem auto_reply_answers_the_new_comment post_id current_user data w
    comment w' post reply :
  create_comment post_id current_user data w = (inr (Obj comment), w') →
  posts (db w) !! post_id = Some post →
  Post.id post = post_id →
  Post.auto_reply_enabled post = true →
  generate_content (trace w') (reply_prompt post comment) = Returned reply →
  blank (text reply) = false →
  enqueued (new_events w w')
  = [(post_id, Comment.id comment, Post.reply_delay post * 10)]
  ∧ ∃ w'' r l,
      send_auto_reply post_id (Comment.id comment) w' = (inr tt, w'')
      ∧ created w' w'' r
      ∧ r = Comment.mk (Comment.id r) (Some post_id)
              (Some (Comment.id comment)) (text reply)
              (Some (Post.author_id post)) false ""
      ∧ get_all_comments post_id w'' = (inr l, w'')
      ∧ comment ∈ l ∧ r ∈ l.
Proof.
  intros H Hpost Hid Hauto Hgen Hblank.
  apply create_comment_inv in H
    as (b & r & evs & _ & Hev & _
        & [(e & ? & _)|(post' & c0 & Hpost' & -> & Hres & ->)]); [done|].
  rewrite Hpost in Hpost'. injection Hpost' as <-.
  cbn zeta in Hres. unfold check_blocked_obj_content in Hres.
  cbn in Hres. destruct b; [done|]. injection Hres as ->.
  set (c := new_comment_row post_id current_user c0 false r (db w)) in *.
  rewrite Hauto in *. cbn [negb andb] in *.
  split.
  { rewrite new_events_app, enqueued_app, (enqueued_gate evs Hev).
    cbn. by rewrite Hid. }
  set (w' := mkWorld _ _) in *.
  assert (Hc : comments (db w') !! Comment.id c = Some c)
    by (cbn [w' db comments]; apply lookup_insert_eq).
  pose proof (worker_inserts post_id (Comment.id c) w' post c reply
                Hpost Hc Hid eq_refl Hgen Hblank) as Hw.
  unfold send_auto_reply.
  eexists _, (Comment.mk (next_id (comments (db w'))) (Some post_id)
                (Some (Comment.id c)) (text reply)
                (Some (Post.author_id post)) false ""), _.
  split; [exact Hw|].
  split_and!.
  - split; [apply next_id_fresh|]. cbn [db comments Comment.id].
    apply lookup_insert_eq.
  - reflexivity.
  - reflexivity.
  - rewrite list_elem_of_filter, elem_of_rows. split; [done|].
    exists (Comment.id c). cbn [db comments].
    rewrite lookup_insert_ne; [done|].
    intros Heq. pose proof (next_id_fresh (comments (db w'))) as Hf.
    rewrite Heq in Hf. congruence.
  - rewrite list_elem_of_filter, elem_of_rows. split; [done|].
    eexists. cbn [db comments]. apply lookup_insert_eq.
Qed.

(** ** The analytics *)

Section AnalyticsFacts.

Context {calendar : Calendar}.

Lemma elem_of_get_date_range start_date end_date day :
  day ∈ get_date_range start_date end_date ↔ start_date <= day <= end_date.
Proof.
  unfold get_date_range. rewrite list_elem_of_fmap. split.
  - intros (i & -> & Hi). apply elem_of_seq in Hi. lia.
  - intros Hday. exists (Z.to_nat (day - start_date)). split; [lia|].
    apply elem_of_seq. lia.
Qed.

(** X20. The date range holds exactly the days from the first to the
    last, both included, each once and in ascending order; it is empty
    when the last day is before the first. *)
Theorem get_date_range_spec start_date end_date :
  (∀ day, day ∈ get_date_range start_date end_date
          ↔ start_date <= day <= end_date)
  ∧ length (get_date_range start_date end_date)
    = Z.to_nat (end_date - start_date + 1)
  ∧ StronglySorted Z.lt (get_date_range start_date end_date).
Proof.
  split_and!.
  - apply elem_of_get_date_range.
  - unfold get_date_range. by rewrite length_map, length_seq.
  - unfold get_date_range.
    generalize (Z.to_nat (end_date - start_date + 1)). intros n.
    generalize 0%nat.
    induction n as [|n IH]; intros i; cbn; constructor; [apply IH|].
    apply Forall_forall. intros day Hday.
    apply list_elem_of_fmap in Hday as (j & -> & Hj).
    apply elem_of_seq in Hj. lia.
Qed.

Lemma initial_analytics_lookup (date_range : list Z)
    (analytics : gmap string (Z * Z)) key :
  foldl (λ analytics date, <[strftime date := (0, 0)]> analytics)
    analytics date_range !! key
  = if decide (key ∈ map strftime date_range) then Some (0, 0)
    else analytics !! key.
Proof.
  revert analytics.
  induction date_range as [|date date_range IH]; intros analytics; cbn.
  - by rewrite decide_False by apply not_elem_of_nil.
  - rewrite IH. destruct (decide (key ∈ map strftime date_range)) as [Hin|Hn].
    + rewrite decide_True; [done|]. by right.
    + destruct (decide (key = strftime date)) as [->|Hne].
      * rewrite lookup_insert_eq. rewrite decide_True; [done|]. by left.
      * rewrite lookup_insert_ne by done.
        rewrite decide_False; [done|].
        intros [?|?]%elem_of_cons; done.
Qed.

(** The loop keeps the keys it found. *)
Lemma fill_analytics_keys comments_data : ∀ analytics m,
  fill_analytics analytics comments_data = inr m →
  ∀ key, is_Some (m !! key) ↔ is_Some (analytics !! key).
Proof.
  induction comments_data as [|entry data IH]; intros analytics m; cbn.
  - by intros [= ->].
  - destruct (analytics !! entry_date entry) as [v|] eqn:Hl; [|done].
    intros H key. rewrite (IH _ _ H key).
    destruct (decide (entry_date entry = key)) as [<-|Hne].
    + rewrite lookup_insert_eq, Hl. split; eauto.
    + by rewrite lookup_insert_ne.
Qed.

Lemma fill_analytics_ok comments_data : ∀ analytics,
  NoDup (map entry_date comments_data) →
  (∀ entry, entry ∈ comments_data →
            is_Some (analytics !! entry_date entry)) →
  ∃ m,
    fill_analytics analytics comments_data = inr m
    ∧ (∀ entry, entry ∈ comments_data →
         m !! entry_date entry
         = Some (total_comments entry, blocked_comments entry))
    ∧ (∀ key, key ∉ map entry_date comments_data →
         m !! key = analytics !! key).
Proof.
  induction comments_data as [|entry data IH]; intros analytics Hnd Hkeys.
  - exists analytics. split_and!; [done | | done].
    intros entry Hin. by apply elem_of_nil in Hin.
  - cbn. destruct (Hkeys entry) as [v Hv]; [by left|]. rewrite Hv.
    apply NoDup_cons in Hnd as [Hfresh Hnd].
    destruct (IH (<[entry_date entry :=
                      (total_comments entry, blocked_comments entry)]>
                    analytics) Hnd) as (m & Hm & Hin & Hout).
    { intros entry' Hin'.
      destruct (decide (entry_date entry = entry_date entry')) as [->|Hne].
      - rewrite lookup_insert_eq. eauto.
      - rewrite lookup_insert_ne by done. apply Hkeys. by right. }
    exists m. split_and!; [done | |].
    + intros entry' [->|Hin']%elem_of_cons; [|by apply Hin].
      rewrite Hout by done. apply lookup_insert_eq.
    + intros key Hkey. cbn in Hkey. apply not_elem_of_cons in Hkey as [Hne Hk].
      rewrite Hout by done. by rewrite lookup_insert_ne.
Qed.

Lemma fill_analytics_key_error comments_data : ∀ analytics entry,
  entry ∈ comments_data →
  analytics !! entry_date entry = None →
  ∃ key, fill_analytics analytics comments_data = inl (MkKeyError key)
         ∧ analytics !! key = None.
Proof.
  induction comments_data as [|entry' data IH]; intros analytics entry Hin Hn.
  - by apply elem_of_nil in Hin.
  - cbn. destruct (analytics !! entry_date entry') as [v|] eqn:Hl.
    + apply elem_of_cons in Hin as [->|Hin]; [congruence|].
      destruct (IH (<[entry_date entry' :=
                        (total_comments entry', blocked_comments entry')]>
                      analytics) entry Hin) as (key & Hk & Hkn).
      { rewrite lookup_insert_ne; [done|]. intros Heq. congruence. }
      exists key. split; [done|].
      destruct (decide (entry_date entry' = key)) as [<-|Hne].
      * by rewrite lookup_insert_eq in Hkn.
      * by rewrite lookup_insert_ne in Hkn.
    + eauto.
Qed.

Lemma build_analytics_dict_initial date_range key :
  foldl (λ analytics date, <[strftime date := (0, 0)]> analytics)
    (∅ : gmap string (Z * Z)) date_range !! key
  = if decide (key ∈ map strftime date_range) then Some (0, 0) else None.
Proof. by rewrite initial_analytics_lookup, lookup_empty. Qed.

Lemma build_analytics_dict_ok date_range comments_data :
  (∀ entry, entry ∈ comments_data →
            entry_date entry ∈ map strftime date_range) →
  NoDup (map entry_date comments_data) →
  ∃ analytics,
    build_analytics_dict date_range comments_data = inr analytics
    ∧ (∀ key, is_Some (analytics !! key) ↔ key ∈ map strftime date_range)
    ∧ (∀ entry, entry ∈ comments_data →
         analytics !! entry_date entry
         = Some (total_comments entry, blocked_comments entry))
    ∧ (∀ date, date ∈ date_range →
         strftime date ∉ map entry_date comments_data →
         analytics !! strftime date = Some (0, 0)).
Proof.
  intros Hin Hnd. unfold build_analytics_dict.
  destruct (fill_analytics_ok comments_data
              (foldl (λ analytics date, <[strftime date := (0, 0)]> analytics)
                 ∅ date_range) Hnd)
    as (m & Hm & Hent & Hout).
  { intros entry He.
    rewrite build_analytics_dict_initial, decide_True by auto. eauto. }
  exists m. split_and!; [done | | done |].
  - intros key.
    rewrite (fill_analytics_keys _ _ _ Hm key), build_analytics_dict_initial.
    case_decide; split; intros Hk; first [done | eauto | by destruct Hk].
  - intros date Hd Hno. rewrite Hout by done.
    rewrite build_analytics_dict_initial.
    rewrite decide_True; [done|]. apply list_elem_of_fmap. eauto.
Qed.

(** X21. The dictionary has a key for each date of the range. When the
    query rows all fall on dates of the range, one row per date, each
    row's figures are under its date and the dates without a row have
    zeros. A row on a date outside the range is a [KeyError]. *)
Theorem build_analytics_dict_spec date_range comments_data :
  ((∀ entry, entry ∈ comments_data →
             entry_date entry ∈ map strftime date_range) →
   NoDup (map entry_date comments_data) →
   ∃ analytics,
     build_analytics_dict date_range comments_data = inr analytics
     ∧ (∀ key, is_Some (analytics !! key) ↔ key ∈ map strftime date_range)
     ∧ (∀ entry, entry ∈ comments_data →
          analytics !! entry_date entry
          = Some (total_comments entry, blocked_comments entry))
     ∧ (∀ date, date ∈ date_range →
          strftime date ∉ map entry_date comments_data →
          analytics !! strftime date = Some (0, 0)))
  ∧ (∀ entry, entry ∈ comments_data →
              entry_date entry ∉ map strftime date_range →
     ∃ key, build_analytics_dict date_range comments_data
            = inl (MkKeyError key)
            ∧ key ∉ map strftime date_range).
Proof.
  split; [apply build_analytics_dict_ok|].
  intros entry Hin Hout. unfold build_analytics_dict.
  destruct (fill_analytics_key_error comments_data
              (foldl (λ analytics date, <[strftime date := (0, 0)]> analytics)
                 ∅ date_range) entry Hin)
    as (key & Hk & Hkn).
  { by rewrite build_analytics_dict_initial, decide_False. }
  exists key. split; [done|].
  rewrite build_analytics_dict_initial in Hkn. by case_decide.
Qed.

(** The rows of a day among the dated comments are the comments of that
    day. *)
Lemma dated_comments_of_day start_date end_date created_on d day :
  start_date <= day <= end_date →
  filter (λ r : Z * Comment.t, r.1 = day)
    (dated_comments start_date end_date created_on d)
  = map (λ kc : Z * Comment.t, (day, kc.2))
      (comments_of_day created_on d day).
Proof.
  intros Hday. unfold dated_comments, comments_of_day.
  induction (map_to_list (comments d)) as [|[k c] l IH]; [done|].
  cbn [omap list_omap fst snd].
  destruct (created_on !! k) as [day'|] eqn:Hk.
  - destruct (decide (day' = day)) as [->|Hne].
    + rewrite bool_decide_true by done.
      rewrite filter_cons_True by done.
      rewrite (filter_cons_True _ (k, c)) by done. cbn. by rewrite IH.
    + rewrite (filter_cons_False _ (k, c)) by (cbn; congruence).
      case_bool_decide; [|done]. by rewrite filter_cons_False.
  - by rewrite (filter_cons_False _ (k, c)) by (cbn; congruence).
Qed.

Lemma length_filter_map {A B} (f : A → B) (P : B → Prop) (Q : A → Prop)
    `{∀ x, Decision (P x)} `{∀ x, Decision (Q x)} (l : list A) :
  (∀ x, P (f x) ↔ Q x) →
  length (filter P (map f l)) = length (filter Q l).
Proof.
  intros HPQ. induction l as [|x l IH]; [done|]. cbn [map].
  destruct (decide (Q x)) as [HQ|HQ].
  - rewrite (filter_cons_True P) by (by apply HPQ).
    rewrite (filter_cons_True Q) by done. cbn. by rewrite IH.
  - rewrite (filter_cons_False P) by (by rewrite HPQ).
    by rewrite (filter_cons_False Q).
Qed.

Lemma elem_of_dated_comments start_date end_date created_on d r :
  r ∈ dated_comments start_date end_date created_on d →
  start_date <= r.1 <= end_date.
Proof.
  unfold dated_comments. intros Hr.
  apply list_elem_of_omap in Hr as ([k c] & _ & Hf). cbn in Hf.
  destruct (created_on !! k); [|done].
  case_bool_decide; [|done]. by injection Hf as <-.
Qed.

(** X22. For a superuser and two dates that parse, the first not after
    the second, with a [strftime] that tells the days of the range apart
    and the creation day of a comment read as a date:
    the answer has
    one key per day of the range and no other, and under each day the
    number of comments created on that day and the number of blocked ones
    among them, zeros included. No [KeyError] arises. *)
Theorem comments_daily_breakdown_counts current_user date_from date_to
    created_on d start_date end_date :
  User.is_superuser current_user = true →
  strptime date_from = Some start_date →
  strptime date_to = Some end_date →
  start_date <= end_date →
  (∀ day day',
     start_date <= day <= end_date → start_date <= day' <= end_date →
     strftime day = strftime day' → day = day') →
  ∃ analytics,
    comments_daily_breakdown current_user date_from date_to created_on d
    = inr analytics
    ∧ (∀ key, is_Some (analytics !! key)
              ↔ ∃ day, start_date <= day <= end_date ∧ key = strftime day)
    ∧ (∀ day, start_date <= day <= end_date →
              analytics !! strftime day
              = Some (day_figures created_on d day)).
Proof.
  intros Hsu Hfrom Hto Hle Hinj.
  unfold comments_daily_breakdown, validate_dates.
  rewrite Hsu, Hfrom, Hto. cbn [negb].
  replace (end_date <? start_date) with false by (symmetry; by apply Z.ltb_ge).
  set (rows := dated_comments start_date end_date created_on d).
  set (days := merge_sort Z.le (remove_dups (map fst rows))).
  set (data := get_comments_data start_date end_date created_on d).
  pose proof (elem_of_get_date_range start_date end_date) as Hrange.
  assert (Hdays : ∀ day, day ∈ days ↔ ∃ c, (day, c) ∈ rows).
  { intros day. unfold days. rewrite merge_sort_Permutation.
    rewrite elem_of_remove_dups, list_elem_of_fmap. split.
    - intros ([day' c] & -> & Hin). by exists c.
    - intros [c Hin]. by exists (day, c). }
  assert (Hdays_nd : NoDup days).
  { unfold days. rewrite merge_sort_Permutation. apply NoDup_remove_dups. }
  assert (Hdays_range : ∀ day, day ∈ days → start_date <= day <= end_date).
  { intros day [c Hin]%Hdays.
    by apply elem_of_dated_comments in Hin. }
  assert (Hfigures : ∀ day, start_date <= day <= end_date →
            (Z.of_nat (length (filter (λ r : Z * Comment.t, r.1 = day) rows)),
             Z.of_nat (length
                (filter (λ r : Z * Comment.t, Comment.is_blocked r.2 = true)
                   (filter (λ r : Z * Comment.t, r.1 = day) rows))))
            = day_figures created_on d day).
  { intros day Hday. unfold rows.
    rewrite (dated_comments_of_day _ _ _ _ _ Hday).
    unfold day_figures. f_equal; f_equal.
    - by rewrite length_map.
    - by apply length_filter_map. }
  assert (Hdata : ∀ entry, entry ∈ data ↔
            ∃ day, day ∈ days
                   ∧ entry = mkRow (inr day)
                       (day_figures created_on d day).1
                       (day_figures created_on d day).2).
  { intros entry. unfold data, get_comments_data. fold rows. fold days.
    rewrite list_elem_of_fmap. split.
    - intros (day & -> & Hin). exists day. split; [done|].
      rewrite <- (Hfigures day) by auto. done.
    - intros (day & Hin & ->). exists day. split; [|done].
      rewrite <- (Hfigures day) by auto. done. }
  assert (Hkeys : map entry_date data = map strftime days).
  { unfold data, get_comments_data. fold rows. fold days.
    rewrite <- list_fmap_compose. done. }
  destruct (build_analytics_dict_ok
              (get_date_range start_date end_date) data)
    as (analytics & Hbuild & Hdom & Hent & Hzero).
  { intros entry (day & Hin & ->)%Hdata. cbn.
    apply list_elem_of_fmap. exists day. split; [done|].
    apply Hrange. auto. }
  { rewrite Hkeys. apply (NoDup_fmap_2_strong strftime); [|done].
    intros day day' Hd Hd'. apply Hinj; by apply Hdays_range. }
  fold data. rewrite Hbuild. exists analytics. split_and!; [done | |].
  - intros key. rewrite Hdom, list_elem_of_fmap. split.
    + intros (day & -> & Hin). exists day. split; [|done]. by apply Hrange.
    + intros (day & Hin & ->). exists day. split; [done|]. by apply Hrange.
  - intros day Hday. destruct (decide (day ∈ days)) as [Hin|Hnin].
    + pose proof (Hent (mkRow (inr day) (day_figures created_on d day).1
                          (day_figures created_on d day).2)) as He.
      unfold entry_date in He.
      cbn [created_date total_comments blocked_comments] in He.
      rewrite He; [|apply Hdata; eauto].
      by destruct (day_figures created_on d day).
    + rewrite Hzero.
      * rewrite <- (Hfigures day Hday).
        rewrite (filter_none _ rows); [done|].
        intros [day' c] Hr Heq. cbn in Heq. subst day'.
        apply Hnin, Hdays. eauto.
      * by apply Hrange.
      * rewrite Hkeys. intros (day' & Heq & Hin')%list_elem_of_fmap.
        apply Hinj in Heq; [by subst | done | by apply Hdays_range].
Qed.

(** X23. The refusals of the analytics endpoint, in their order: someone
    who is not a superuser gets 403 whatever the dates are; then a date
    that does not parse gives 400 "Invalid date format"; then a first
    date after the second gives 400. Two equal dates are accepted. *)
Theorem comments_daily_breakdown_refusals current_user date_from date_to
    created_on d :
  (User.is_superuser current_user = false →
   comments_daily_breakdown current_user date_from date_to created_on d
   = inl (inl (HTTPException 403 "Not authorized to retrieve this info")))
  ∧ (User.is_superuser current_user = true →
     strptime date_from = None ∨ strptime date_to = None →
     comments_daily_breakdown current_user date_from date_to created_on d
     = inl (inl (HTTPException 400
                   "Invalid date format. Use YYYY-MM-DD.")))
  ∧ (∀ start_date end_date,
       User.is_superuser current_user = true →
       strptime date_from = Some start_date →
       strptime date_to = Some end_date →
       (end_date < start_date →
        comments_daily_breakdown current_user date_from date_to created_on d
        = inl (inl (HTTPException 400
                      "date_from must be earlier than date_to.")))
       ∧ (start_date = end_date →
          validate_dates date_from date_to = inr (start_date, end_date)
          ∧ get_date_range start_date end_date = [start_date])).
Proof.
  unfold comments_daily_breakdown, validate_dates. split_and!.
  - by intros ->.
  - intros -> [Hn|Hn]; rewrite Hn; cbn; [done|].
    by destruct (strptime date_from).
  - intros start_date end_date -> -> ->. cbn [negb]. split.
    + intros Hlt. by replace (end_date <? start_date) with true
        by (symmetry; by apply Z.ltb_lt).
    + intros ->. rewrite Z.ltb_irrefl. split; [done|].
      unfold get_date_range. replace (end_date - end_date + 1) with 1 by lia.
      change (Z.to_nat 1) with 1%nat. cbn [seq map Z.of_nat].
      by rewrite Z.add_0_r.
Qed.

End AnalyticsFacts.

(** ** Users *)

Section UsersFacts.

Context {security : Security}.

Lemma taken_spec username email users :
  taken username email users = true
  ↔ ∃ i u, users !! i = Some u
           ∧ (UserRow.username u = username ∨ UserRow.email u = email).
Proof.
  unfold taken. rewrite bool_decide_eq_true, Exists_exists. split.
  - intros (u & Hin & Hu). apply elem_of_rows in Hin as [i Hi]. eauto.
  - intros (i & u & Hi & Hu). exists u. split; [|done].
    apply elem_of_rows. eauto.
Qed.

(** X24. Registration. When a stored user has the same username or the
    same email, the answer is 400 and the table is as it was. Otherwise
    one row is added under a fresh id, with what the password context
    made of the password, active and not a superuser; the other rows stay,
    and usernames and emails stay unique if they were. *)
Theorem register_spec username email password salt users :
  ((∃ i u, users !! i = Some u
           ∧ (UserRow.username u = username ∨ UserRow.email u = email)) →
   register username email password salt users
   = (inl (HTTPException 400 "Email or username already exists"), users))
  ∧ ((¬ ∃ i u, users !! i = Some u
               ∧ (UserRow.username u = username
                  ∨ UserRow.email u = email)) →
     ∃ users' id,
       register username email password salt users
       = (inr "User registered successfully", users')
       ∧ users !! id = None
       ∧ users' !! id
         = Some (UserRow.mk id username email (pwd_hash salt password)
                   true false)
       ∧ (∀ k, k ≠ id → users' !! k = users !! k)
       ∧ (unique_credentials users → unique_credentials users')).
Proof.
  split.
  - intros Htaken. apply taken_spec in Htaken.
    unfold register. by rewrite Htaken.
  - intros Hfree.
    assert (taken username email users = false) as Hf.
    { destruct (taken username email users) eqn:Ht; [|done].
      apply taken_spec in Ht. done. }
    unfold register. rewrite Hf.
    eexists _, (next_id users). split_and!; [done | | | |].
    + apply next_id_fresh.
    + apply lookup_insert_eq.
    + intros k Hk. by rewrite lookup_insert_ne.
    + intros Huniq i j u v Hi Hj Hsame.
      destruct (decide (i = next_id users)) as [->|Hi'],
               (decide (j = next_id users)) as [->|Hj']; [done | | |].
      * rewrite lookup_insert_eq in Hi. injection Hi as <-.
        rewrite lookup_insert_ne in Hj by done. cbn in Hsame.
        destruct Hfree. exists j, v. split; [done|].
        destruct Hsame as [->| ->]; auto.
      * rewrite lookup_insert_eq in Hj. injection Hj as <-.
        rewrite lookup_insert_ne in Hi by done. cbn in Hsame.
        destruct Hfree. exists i, u. split; [done|].
        destruct Hsame as [<-| <-]; auto.
      * rewrite lookup_insert_ne in Hi, Hj by done.
        by apply (Huniq i j u v).
Qed.

Lemma user_by_username_Some username users user :
  user_by_username username users = Some user →
  UserRow.username user = username ∧ ∃ i, users !! i = Some user.
Proof.
  unfold user_by_username. intros H.
  destruct (list_find _ _) as [[n u]|] eqn:Hfind; [|done].
  injection H as ->. apply list_find_Some in Hfind as (Hn & Hu & _).
  split; [done|]. apply elem_of_rows. by eapply list_elem_of_lookup_2.
Qed.

Lemma user_by_username_None username users :
  user_by_username username users = None ↔
  ∀ i u, users !! i = Some u → UserRow.username u ≠ username.
Proof.
  unfold user_by_username. split.
  - intros H i u Hi.
    destruct (list_find _ _) as [[n v]|] eqn:Hfind; [done|].
    apply list_find_None in Hfind.
    rewrite Forall_forall in Hfind. apply Hfind, elem_of_rows. eauto.
  - intros H. destruct (list_find _ _) as [[n v]|] eqn:Hfind; [|done].
    apply list_find_Some in Hfind as (Hn & Hu & _).
    apply list_elem_of_lookup_2, elem_of_rows in Hn as [i Hi].
    by destruct (H i v Hi).
Qed.

(** X25. A login with a username that no user has and a login with a
    wrong password get the same answer, 400 "Invalid credentials": the
    answer does not tell which of the two failed. *)
Theorem login_failures_look_alike username password utcnow1 utcnow2 users :
  (∀ i u, users !! i = Some u → UserRow.username u ≠ username)
  ∨ (∀ i u, users !! i = Some u → UserRow.username u = username →
            pwd_verify password (UserRow.hashed_password u) = false) →
  login username password utcnow1 utcnow2 users
  = inl (HTTPException 400 "Invalid credentials").
Proof.
  intros Hfail. unfold login.
  destruct (user_by_username username users) as [user|] eqn:Hu; [|done].
  apply user_by_username_Some in Hu as [Hname [i Hi]].
  destruct Hfail as [Hno|Hwrong].
  - by destruct (Hno i user Hi).
  - by rewrite (Hwrong i user Hi Hname).
Qed.

(** X26. The token carries the claims it was given and an expiry: [exp]
    is the clock plus the given duration, or plus the configured minutes
    when no duration or a duration of zero is given; an [exp] among the
    given claims is replaced. *)
Theorem create_access_token_spec data expires_delta utcnow :
  ∃ claims,
    create_access_token data expires_delta utcnow = jwt_encode claims
    ∧ claims !! "exp"
      = Some (ClaimTime
                (utcnow + match expires_delta with
                          | Some 0 | None =>
                              ACCESS_TOKEN_EXPIRE_MINUTES * 60
                          | Some delta => delta
                          end))
    ∧ (∀ key, key ≠ "exp" → claims !! key = data !! key).
Proof.
  unfold create_access_token. eexists. split_and!; [done | |].
  - rewrite lookup_insert_eq. do 3 f_equal.
    destruct expires_delta as [[|delta|delta]|]; done.
  - intros key Hkey. by rewrite lookup_insert_ne.
Qed.

(** X27. Registration and login together. After a registration that went
    through, with a password context that verifies the hash it made, a
    login with the same username and password succeeds: both tokens
    carry the username as [sub]; the access token expires the configured
    minutes after the first reading of the clock and the refresh token
    seven days after the second. *)
Theorem register_then_login username email password salt users users'
    utcnow1 utcnow2 :
  register username email password salt users
  = (inr "User registered successfully", users') →
  pwd_verify password (pwd_hash salt password) = true →
  login username password utcnow1 utcnow2 users'
  = inr (mkToken
           (jwt_encode
              {["exp" := ClaimTime
                           (utcnow1 + ACCESS_TOKEN_EXPIRE_MINUTES * 60);
                "sub" := ClaimStr username]})
           (jwt_encode
              {["exp" := ClaimTime (utcnow2 + 604800);
                "sub" := ClaimStr username]})
           "bearer").
Proof.
  intros Hreg Hverify. unfold register in Hreg.
  destruct (taken username email users) eqn:Ht; [done|].
  injection Hreg as <-.
  set (new := UserRow.mk (next_id users) username email
                (pwd_hash salt password) true false).
  unfold login.
  destruct (user_by_username username (<[next_id users := new]> users))
    as [user|] eqn:Hu.
  - apply user_by_username_Some in Hu as [Hname [i Hi]].
    assert (user = new) as ->.
    { destruct (decide (i = next_id users)) as [->|Hne].
      - rewrite lookup_insert_eq in Hi. by injection Hi.
      - rewrite lookup_insert_ne in Hi by done.
        assert (taken username email users = true); [|congruence].
        apply taken_spec. eauto. }
    cbn [UserRow.hashed_password UserRow.username new]. rewrite Hverify.
    cbn [negb]. unfold create_access_token, minutes, days.
    do 2 f_equal.
    + destruct (ACCESS_TOKEN_EXPIRE_MINUTES * 60 =? 0) eqn:Hz; [|done].
      done.
  - exfalso. rewrite user_by_username_None in Hu.
    by apply (Hu (next_id users) new); [apply lookup_insert_eq|].
Qed.

End UsersFacts.

End Facts.

(** * Runs on the concrete worlds *)

Example delete_thread :
  delete_comment 1 alice w_thread
  = (inr "Comment deleted successfully",
     mkWorld
       (mkDB {[1 := post1]}
          {[4 := Comment.mk 4 (Some 1) None "Another comment" (Some 1)
                   false ""]})
       []).
Proof. vm_compute. reflexivity. Qed.

Example create_post_whitespace_title :
  create_post (model := lenient_model) alice
    (DPost (PostCreate.mk "  " "Some text" None None)) w_post
  = (inl (HTTPException 422 "Title cannot be an empty string."),
     mkWorld (db w_post)
       [EvGenerate (text_proc "  "); EvGenerate (text_proc "Some text")]).
Proof. vm_compute. reflexivity. Qed.

(** C1. The model answers with two candidates; the first has no rating at
    tier 2 or above, the second has a harassment rating at tier 3. The
    gate returns [(False, "")]: the second candidate is never read. *)
Theorem moderation_reads_first_candidate_only :
  (∃ cands candidate r,
     two_candidate_model [] (text_proc "hello")
     = Returned {| candidates := Some cands; text := "" |}
     ∧ candidate ∈ cands
     ∧ r ∈ safety_ratings candidate
     ∧ 2 <= probability r
     ∧ safety_categories !! category r = Some "HARM_CATEGORY_HARASSMENT")
  ∧ moderate_content_with_ai (model := two_candidate_model) "hello" w_post
    = (inr (Some (false, "")),
       mkWorld (db w_post) [EvGenerate (text_proc "hello")]).
Proof.
  split; [|vm_compute; reflexivity].
  exists [{| safety_ratings := [rating 7 0] |};
          {| safety_ratings := [rating 7 3] |}],
    {| safety_ratings := [rating 7 3] |}, (rating 7 3).
  split_and!; [done | set_solver | set_solver | done | done].
Qed.

(** C6. A comment with empty content on a post that accepts comments: the
    [ValueError] of the [Comment] constructor, raised before the [try],
    leaves the handler, so the client gets a 500 and not the 422 of a
    validation error. Nothing is stored. *)
Theorem create_comment_empty_content_not_422 :
  ∃ e w',
    create_comment (model := lenient_model) 1 alice
      (DComment (CommentCreate.mk "" None)) w_post
    = (inl e, w')
    ∧ e = ValueError "Content cannot be an empty string."
    ∧ http_status e = 500
    ∧ db w' = db w_post.
Proof. do 2 eexists. split_and!; [vm_compute; reflexivity | done..]. Qed.


(** ** Witnesses and counterexamples *)

(** The unreachable model fails every call. The flaky model fails the
    four calls the gate makes and would answer a fifth: the gate blocks
    all the same. *)
Lemma moderation_fails_closed_witness :
  let failed :=
    attempt_failed (text_proc "hello") "503 Service Unavailable" in
  let w' :=
    mkWorld (db w_post)
      (trace w_post ++ failed ++ failed ++ failed ++ failed
       ++ [EvPrint "Content has been blocked because of AI-moderation is not available"]) in
  moderate_content_with_ai (model := unreachable_model) "hello" w_post
  = (inr (Some (true, "Error while AI text proceeds")), w')
  ∧ moderate_content_with_ai (model := flaky_model) "hello" w_post
    = (inr (Some (true, "Error while AI text proceeds")), w')
  ∧ flaky_model (trace w') (text_proc "hello")
    = Returned (respond [[rating 7 1; rating 8 0]] "Thank you!").
Proof.
  intros failed w'. split_and!.
  - apply (moderation_fails_closed (model := unreachable_model) "hello"
             w_post "503 Service Unavailable" "503 Service Unavailable"
             "503 Service Unavailable" "503 Service Unavailable");
      reflexivity.
  - apply (moderation_fails_closed (model := flaky_model) "hello"
             w_post "503 Service Unavailable" "503 Service Unavailable"
             "503 Service Unavailable" "503 Service Unavailable");
      reflexivity.
  - reflexivity.
Defined.

(** A comment that passes, on a post with auto-reply and delay 3: one
    task, for post 1 and comment 1, with countdown 30. *)
Lemma create_comment_enqueues_witness :
  let w' := mkWorld (mkDB {[1 := post1]} {[1 := hello_row]})
              [EvGenerate (text_proc "Hello"); EvApplyAsync 1 1 30] in
  create_comment (model := lenient_model) 1 alice hello w_post = (inr (Obj hello_row), w')
  ∧ ((∃ post c,
        posts (db w_post) !! 1 = Some post
        ∧ created w_post w' c
        ∧ Comment.is_blocked c = false
        ∧ Post.auto_reply_enabled post = true
        ∧ enqueued (new_events w_post w')
          = [(Post.id post, Comment.id c, Post.reply_delay post * 10)])
     ∨ (enqueued (new_events w_post w') = []
        ∧ ¬ ∃ post c,
            posts (db w_post) !! 1 = Some post
            ∧ created w_post w' c
            ∧ Comment.is_blocked c = false
            ∧ Post.auto_reply_enabled post = true)).
Proof.
  intros w'.
  assert (H : create_comment (model := lenient_model) 1 alice hello w_post
              = (inr (Obj hello_row), w'))
    by (vm_compute; reflexivity).
  split; [exact H|].
  exact (create_comment_enqueues (model := lenient_model) 1 alice hello w_post _ _ H).
Defined.

(** The worker on a missing post, and on post 1 and comment 1. *)
Lemma auto_reply_worker_witness :
  let c := Comment.mk 2 (Some 1) (Some 1) "Thank you!" (Some 1) false "" in
  _send_auto_reply_async (model := lenient_model) 9 1 w_comment
  = (inr tt,
     mkWorld (db w_comment) [EvRollback; EvPrint "Post or Comment not found"])
  ∧ comments (db w_comment) !! 2 = None
  ∧ _send_auto_reply_async (model := lenient_model) 1 1 w_comment
    = (inr tt,
       mkWorld (mkDB {[1 := post1]} (<[2 := c]> {[1 := comment1]}))
         [EvGenerate (reply_prompt post1 comment1);
          EvPrint "Auto reply has been created: Thank you!"]).
Proof.
  intros c. split.
  - apply (proj1 (auto_reply_worker (model := lenient_model) 9 1 w_comment)).
    left. reflexivity.
  - apply (proj2 (auto_reply_worker (model := lenient_model) 1 1 w_comment)
             post1 comment1 (respond [[rating 7 1; rating 8 0]] "Thank you!"));
      reflexivity.
Defined.

(** Post 1 and comment 1 exist, the model replies with the empty string:
    the worker raises and inserts nothing. *)
Lemma auto_reply_blank_reply_inserts_nothing :
  posts (db w_comment) !! 1 = Some post1
  ∧ comments (db w_comment) !! 1 = Some comment1
  ∧ _send_auto_reply_async (model := silent_model) 1 1 w_comment
    = (inl (ValueError "Content cannot be an empty string."),
       mkWorld (db w_comment) [EvGenerate (reply_prompt post1 comment1)]).
Proof. split_and!; vm_compute; reflexivity. Qed.

(** Alice deletes comment 1 of the thread. *)
Lemma delete_comment_cascades_witness :
  (comments (db w_thread) !! 1 = Some comment1
   ∧ (Comment.author_id comment1 = Some (User.id alice)
      ∨ User.is_superuser alice = true))
  ∧ ∃ w',
      delete_comment 1 alice w_thread
      = (inr "Comment deleted successfully", w')
      ∧ posts (db w') = posts (db w_thread)
      ∧ (∀ k, in_subtree (comments (db w_thread)) 1 k →
              comments (db w') !! k = None)
      ∧ (∀ k, ¬ in_subtree (comments (db w_thread)) 1 k →
              comments (db w') !! k = comments (db w_thread) !! k)
      ∧ ((∀ k, ¬ is_reply (comments (db w_thread)) 1 k) →
         comments (db w') = delete 1 (comments (db w_thread))).
Proof.
  assert (H1 : comments (db w_thread) !! 1 = Some comment1) by reflexivity.
  assert (H2 : Comment.author_id comment1 = Some (User.id alice)
               ∨ User.is_superuser alice = true) by (left; reflexivity).
  split; [by split|].
  exact (delete_comment_cascades 1 alice w_thread comment1 H1 H2).
Defined.



(** The strict model blocks an update of comment 1; the reason is there. *)
Lemma blocked_has_reason_preserved_witness :
  blocked_has_reason (db w_comment)
  ∧ blocked_has_reason
      (db (run (model := strict_model) (OpUpdateComment 1 alice hello) w_comment)).
Proof.
  assert (H : blocked_has_reason (db w_comment)).
  { split; intros k row Hrow; cbn in Hrow;
      apply lookup_singleton_Some in Hrow as [<- <-];
      unfold has_reason; cbn; discriminate. }
  split; [exact H|].
  exact (proj2 (blocked_has_reason_preserved (model := strict_model)
                  (OpUpdateComment 1 alice hello) w_comment) H).
Defined.


(** ** Runs of the further properties *)

Example moderate_content_bad_title :
  moderate_content (model := strict_model) (DPost bad_post) w_post
  = (inr (DPost bad_post, true, "HARM_CATEGORY_HARASSMENT"),
     mkWorld (db w_post) [EvGenerate (text_proc "Bad title")]).
Proof. vm_compute. reflexivity. Qed.

Lemma create_comment_post_not_found_witness :
  posts (db w_post) !! 9 = None
  ∧ refused (create_comment (model := lenient_model) 9 alice hello w_post)
      w_post (HTTPException 404 "Post not found").
Proof.
  assert (H : posts (db w_post) !! 9 = None) by reflexivity.
  split; [exact H|].
  exact (create_comment_post_not_found (model := lenient_model)
           9 alice hello w_post H).
Defined.

Lemma create_comment_blocked_post_witness :
  refused (create_comment (model := lenient_model) 2 alice hello
             w_blocked_post)
    w_blocked_post
    (HTTPException 403 "You cannot create a comment for blocked content.").
Proof.
  apply (create_comment_blocked_post (model := lenient_model) 2 alice hello
           w_blocked_post blocked_post); reflexivity.
Defined.

Lemma create_comment_parent_guard_witness :
  refused (create_comment (model := lenient_model) 1 alice (reply_data 7)
             w_blocked)
    w_blocked (HTTPException 404 "Parent comment not found.")
  ∧ refused (create_comment (model := lenient_model) 1 alice (reply_data 1)
               w_blocked)
      w_blocked
      (HTTPException 403 "You cannot create a comment for blocked content.").
Proof.
  split.
  - apply (proj1 (create_comment_parent_guard (model := lenient_model)
                    1 alice "A reply" 7 w_blocked post1
                    eq_refl eq_refl ltac:(discriminate))).
    reflexivity.
  - apply (proj2 (create_comment_parent_guard (model := lenient_model)
                    1 alice "A reply" 1 w_blocked post1
                    eq_refl eq_refl ltac:(discriminate)) blocked_comment);
      reflexivity.
Defined.

Lemma create_comment_parent_on_other_post_witness :
  ∃ resp w' c,
    create_comment (model := lenient_model) 2 bob (reply_data 1) w_two_posts
    = (inr resp, w')
    ∧ created w_two_posts w' c
    ∧ Comment.post_id c = Some 2
    ∧ Comment.parent_id c = Some 1
    ∧ Comment.content c = "A reply".
Proof.
  apply (create_comment_parent_on_other_post (model := lenient_model)
           2 bob "A reply" 1 w_two_posts post2 comment1);
    first [ reflexivity | discriminate ].
Defined.

Lemma post_of_another_user_witness :
  refused (update_post (model := lenient_model) 1 admin (DPost new_post)
             w_post)
    w_post (HTTPException 403 "Not authorized to update this post")
  ∧ refused (delete_post 1 bob w_post) w_post
      (HTTPException 403 "Not authorized to delete this post")
  ∧ ∃ w', delete_post 1 admin w_post = (inr "Post deleted successfully", w')
          ∧ posts (db w') = delete 1 (posts (db w_post)).
Proof.
  assert (Hpost : posts (db w_post) !! 1 = Some post1) by reflexivity.
  assert (Hbob : Post.author_id post1 ≠ User.id bob) by discriminate.
  assert (Hadmin : Post.author_id post1 ≠ User.id admin) by discriminate.
  pose proof (post_of_another_user (model := lenient_model) 1 bob w_post
                post1 Hpost Hbob) as (_ & Hdel & _).
  pose proof (post_of_another_user (model := lenient_model) 1 admin w_post
                post1 Hpost Hadmin) as (Hupd & _ & Hsu).
  split_and!; [apply Hupd | by apply Hdel | by apply Hsu].
Defined.

Lemma comment_of_another_user_witness :
  refused (update_comment (model := lenient_model) 1 admin hello w_comment)
    w_comment (HTTPException 403 "Not authorized to update this comment")
  ∧ refused (delete_comment 1 bob w_comment) w_comment
      (HTTPException 403 "Not authorized to delete this comment").
Proof.
  assert (Hc : comments (db w_comment) !! 1 = Some comment1) by reflexivity.
  assert (Hbob : Comment.author_id comment1 ≠ Some (User.id bob))
    by discriminate.
  assert (Hadmin : Comment.author_id comment1 ≠ Some (User.id admin))
    by discriminate.
  pose proof (comment_of_another_user (model := lenient_model) 1 bob
                w_comment comment1 Hc Hbob) as (_ & Hdel).
  pose proof (comment_of_another_user (model := lenient_model) 1 admin
                w_comment comment1 Hc Hadmin) as (Hupd & _).
  split; [apply Hupd | by apply Hdel].
Defined.

Lemma delete_post_then_witness :
  ∃ w',
    delete_post 1 alice w_comment = (inr "Post deleted successfully", w')
    ∧ get_post 1 w' = (inl (HTTPException 404 "Post not found"), w')
    ∧ get_all_comments 1 w' = (inr [], w')
    ∧ (∀ u data,
         refused (create_comment (model := lenient_model) 1 u data w') w'
           (HTTPException 404 "Post not found"))
    ∧ (∀ k, k ≠ 1 → posts (db w') !! k = posts (db w_comment) !! k)
    ∧ dom (comments (db w')) = dom (comments (db w_comment)).
Proof.
  apply (delete_post_then (model := lenient_model) 1 alice w_comment post1);
    [reflexivity | left; reflexivity].
Defined.

Lemma create_post_then_read_witness :
  create_post (model := lenient_model) alice (DPost new_post) w_post
  = (inr (Obj new_post_row_2), w_new_post)
  ∧ ∃ p0 p l,
      DPost new_post = DPost p0
      ∧ get_post (Post.id p) w_new_post = (inr p, w_new_post)
      ∧ posts (db w_post) !! Post.id p = None
      ∧ Post.title p = PostCreate.title p0
      ∧ Post.content p = PostCreate.content p0
      ∧ Post.author_id p = User.id alice
      ∧ Post.auto_reply_enabled p
        = default false (PostCreate.auto_reply_enabled p0)
      ∧ Post.reply_delay p = default 0 (PostCreate.reply_delay p0)
      ∧ list_posts w_new_post = (inr l, w_new_post)
      ∧ (p ∈ l ↔ Post.is_blocked p = false).
Proof.
  assert (H : create_post (model := lenient_model) alice (DPost new_post)
                w_post = (inr (Obj new_post_row_2), w_new_post))
    by (vm_compute; reflexivity).
  split; [exact H|].
  exact (create_post_then_read (model := lenient_model) _ _ _ _ _ H).
Defined.

Lemma create_comment_then_read_witness :
  create_comment (model := lenient_model) 1 alice hello w_post
  = (inr (Obj hello_row), w_hello)
  ∧ ∃ c0 c l,
      hello = DComment c0
      ∧ get_comment (Comment.id c) w_hello = (inr c, w_hello)
      ∧ comments (db w_post) !! Comment.id c = None
      ∧ Comment.content c = CommentCreate.content c0
      ∧ Comment.parent_id c = CommentCreate.parent_id c0
      ∧ Comment.post_id c = Some 1
      ∧ Comment.author_id c = Some (User.id alice)
      ∧ get_all_comments 1 w_hello = (inr l, w_hello)
      ∧ c ∈ l.
Proof.
  assert (H : create_comment (model := lenient_model) 1 alice hello w_post
              = (inr (Obj hello_row), w_hello))
    by (vm_compute; reflexivity).
  split; [exact H|].
  exact (create_comment_then_read (model := lenient_model) _ _ _ _ _ _ H).
Defined.

Lemma delete_comment_leaves_no_orphan_witness :
  ∃ w',
    delete_comment 1 alice w_thread
    = (inr "Comment deleted successfully", w')
    ∧ get_comment 1 w'
      = (inl (HTTPException 404 "Comment not found"), w')
    ∧ (∀ k c p,
         comments (db w') !! k = Some c →
         Comment.parent_id c = Some p →
         comments (db w') !! p = comments (db w_thread) !! p).
Proof.
  apply (delete_comment_leaves_no_orphan 1 alice w_thread comment1);
    [reflexivity | left; reflexivity].
Defined.

Lemma update_post_rewrites_one_row_witness :
  update_post (model := lenient_model) 1 alice (DPost new_post) w_post
  = (inr (Obj updated_post1), w_updated_post)
  ∧ ∃ post post',
      posts (db w_post) !! 1 = Some post
      ∧ posts (db w_updated_post) !! 1 = Some post'
      ∧ Post.author_id post = User.id alice
      ∧ Post.id post' = Post.id post
      ∧ Post.author_id post' = Post.author_id post
      ∧ Post.title post' = PostCreate.title new_post
      ∧ Post.content post' = PostCreate.content new_post
      ∧ Post.auto_reply_enabled post'
        = default (Post.auto_reply_enabled post)
            (PostCreate.auto_reply_enabled new_post)
      ∧ Post.reply_delay post'
        = default (Post.reply_delay post) (PostCreate.reply_delay new_post)
      ∧ (∀ k, k ≠ 1 →
              posts (db w_updated_post) !! k = posts (db w_post) !! k)
      ∧ comments (db w_updated_post) = comments (db w_post)
      ∧ enqueued (new_events w_post w_updated_post) = [].
Proof.
  assert (H : update_post (model := lenient_model) 1 alice (DPost new_post)
                w_post = (inr (Obj updated_post1), w_updated_post))
    by (vm_compute; reflexivity).
  split; [exact H|].
  exact (update_post_rewrites_one_row (model := lenient_model) _ _ _ _ _ _ H).
Defined.

Lemma update_comment_rewrites_one_row_witness :
  update_comment (model := lenient_model) 1 alice hello w_comment
  = (inr (Obj hello_row), w_updated_comment)
  ∧ ∃ comment comment',
      comments (db w_comment) !! 1 = Some comment
      ∧ comments (db w_updated_comment) !! 1 = Some comment'
      ∧ Comment.author_id comment = Some (User.id alice)
      ∧ Comment.id comment' = Comment.id comment
      ∧ Comment.post_id comment' = Comment.post_id comment
      ∧ Comment.parent_id comment' = Comment.parent_id comment
      ∧ Comment.author_id comment' = Comment.author_id comment
      ∧ Comment.content comment' = data_content hello
      ∧ (∀ k, k ≠ 1 →
              comments (db w_updated_comment) !! k
              = comments (db w_comment) !! k)
      ∧ posts (db w_updated_comment) = posts (db w_comment)
      ∧ enqueued (new_events w_comment w_updated_comment) = [].
Proof.
  assert (H : update_comment (model := lenient_model) 1 alice hello w_comment
              = (inr (Obj hello_row), w_updated_comment))
    by (vm_compute; reflexivity).
  split; [exact H|].
  exact (update_comment_rewrites_one_row (model := lenient_model)
           _ _ _ _ _ _ H).
Defined.

Lemma update_with_blank_text_witness :
  (∃ detail,
     refused (update_post (model := lenient_model) 1 alice
                (DPost (PostCreate.mk "Title" "   " None None)) w_comment)
       w_comment (HTTPException 422 detail)
     ∧ (detail = "Title cannot be an empty string."
        ∨ detail = "Content cannot be an empty string."))
  ∧ refused (update_comment (model := lenient_model) 1 alice
               (DComment (CommentCreate.mk "" None)) w_comment)
      w_comment (ValueError "Content cannot be an empty string.").
Proof.
  pose proof (update_with_blank_text (model := lenient_model) 1 alice
                w_comment) as [Hpost Hcomment].
  split.
  - apply (Hpost post1); [reflexivity | reflexivity | right; reflexivity].
  - apply (Hcomment comment1); reflexivity.
Defined.

Lemma auto_reply_worker_is_contained_witness :
  let w' := mkWorld (mkDB {[1 := post1]}
                       (<[2 := thanks_row 2 1]> {[1 := comment1]}))
              [EvGenerate (reply_prompt post1 comment1);
               EvPrint "Auto reply has been created: Thank you!"] in
  _send_auto_reply_async (model := lenient_model) 1 1 w_comment
  = (inr tt, w')
  ∧ enqueued (new_events w_comment w') = []
  ∧ (length (model_calls (new_events w_comment w')) ≤ 1)%nat
  ∧ posts (db w') = posts (db w_comment)
  ∧ (∀ k c, comments (db w_comment) !! k = Some c →
            comments (db w') !! k = Some c)
  ∧ (∀ e, @inr Exception unit tt = inl e → db w' = db w_comment).
Proof.
  intros w'.
  assert (H : _send_auto_reply_async (model := lenient_model) 1 1 w_comment
              = (inr tt, w')) by (vm_compute; reflexivity).
  split; [exact H|].
  exact (auto_reply_worker_is_contained (model := lenient_model)
           _ _ _ _ _ H).
Defined.

Lemma auto_reply_worker_lets_errors_out_witness :
  let after_call :=
    mkWorld (db w_comment) [EvGenerate (reply_prompt post1 comment1)] in
  _send_auto_reply_async (model := unreachable_model) 1 1 w_comment
  = (inl (ServiceError "503 Service Unavailable"), after_call)
  ∧ _send_auto_reply_async (model := silent_model) 1 1 w_comment
    = (inl (ValueError "Content cannot be an empty string."), after_call).
Proof.
  intros after_call. split.
  - apply (proj1 (auto_reply_worker_lets_errors_out
                    (model := unreachable_model) 1 1 w_comment
                    post1 comment1 eq_refl eq_refl)).
    reflexivity.
  - apply (proj2 (auto_reply_worker_lets_errors_out
                    (model := silent_model) 1 1 w_comment
                    post1 comment1 eq_refl eq_refl) (respond [] ""));
      reflexivity.
Defined.

Lemma auto_reply_answers_the_new_comment_witness :
  create_comment (model := lenient_model) 1 alice hello w_post
  = (inr (Obj hello_row), w_hello)
  ∧ enqueued (new_events w_post w_hello) = [(1, 1, 30)]
  ∧ ∃ w'' r l,
      send_auto_reply (model := lenient_model) 1 1 w_hello = (inr tt, w'')
      ∧ created w_hello w'' r
      ∧ r = Comment.mk (Comment.id r) (Some 1) (Some 1) "Thank you!"
              (Some 1) false ""
      ∧ get_all_comments 1 w'' = (inr l, w'')
      ∧ hello_row ∈ l ∧ r ∈ l.
Proof.
  assert (H : create_comment (model := lenient_model) 1 alice hello w_post
              = (inr (Obj hello_row), w_hello))
    by (vm_compute; reflexivity).
  split; [exact H|].
  exact (auto_reply_answers_the_new_comment (model := lenient_model)
           1 alice hello w_post hello_row w_hello post1 thanks
           H eq_refl eq_refl eq_refl eq_refl eq_refl).
Defined.

(** ** Runs of the analytics and of the users *)

Example comments_daily_breakdown_november :
  comments_daily_breakdown (calendar := november) admin
    "2024-11-01" "2024-11-03" three_comments_days three_comments
  = inr (list_to_map [("2024-11-01", (2, 1)); ("2024-11-02", (0, 0));
                      ("2024-11-03", (1, 0))]).
Proof. vm_compute. reflexivity. Qed.

Lemma build_analytics_dict_spec_witness :
  (∃ analytics,
     build_analytics_dict (calendar := november)
       [739191; 739192; 739193] november_rows = inr analytics
     ∧ (∀ key, is_Some (analytics !! key)
               ↔ key ∈ map (strftime (Calendar := november))
                       [739191; 739192; 739193])
     ∧ (∀ entry, entry ∈ november_rows →
          analytics !! entry_date (calendar := november) entry
          = Some (total_comments entry, blocked_comments entry))
     ∧ (∀ date, date ∈ [739191; 739192; 739193] →
          strftime (Calendar := november) date
          ∉ map (entry_date (calendar := november)) november_rows →
          analytics !! strftime (Calendar := november) date = Some (0, 0)))
  ∧ (∃ key, build_analytics_dict (calendar := november)
              [739191; 739192] november_rows
            = inl (MkKeyError key)
            ∧ key ∉ map (strftime (Calendar := november))
                      [739191; 739192]).
Proof.
  split.
  - apply (proj1 (build_analytics_dict_spec (calendar := november)
                    [739191; 739192; 739193] november_rows)).
    + intros entry Hin. unfold november_rows in Hin.
      apply elem_of_cons in Hin as [->|Hin]; [vm_compute; left|].
      apply elem_of_cons in Hin as [->|Hin];
        [vm_compute; do 2 right; left|].
      by apply elem_of_nil in Hin.
    + vm_compute. repeat constructor.
      * intros Hin. apply elem_of_cons in Hin as [Heq|Hin]; [done|].
        by apply elem_of_nil in Hin.
      * intros Hin. by apply elem_of_nil in Hin.
  - apply (proj2 (build_analytics_dict_spec (calendar := november)
                    [739191; 739192] november_rows)
             (mkRow (inl "2024-11-03") 1 0)).
    + unfold november_rows. right. left.
    + vm_compute. intros Hin.
      apply elem_of_cons in Hin as [Heq|Hin]; [done|].
      apply elem_of_cons in Hin as [Heq|Hin]; [done|].
      by apply elem_of_nil in Hin.
Defined.

Lemma comments_daily_breakdown_counts_witness :
  ∃ analytics,
    comments_daily_breakdown (calendar := november) admin
      "2024-11-01" "2024-11-03" three_comments_days three_comments
    = inr analytics
    ∧ (∀ key, is_Some (analytics !! key)
              ↔ ∃ day, 739191 <= day <= 739193
                       ∧ key = strftime (Calendar := november) day)
    ∧ (∀ day, 739191 <= day <= 739193 →
              analytics !! strftime (Calendar := november) day
              = Some (day_figures three_comments_days three_comments day)).
Proof.
  apply (comments_daily_breakdown_counts (calendar := november) admin
           "2024-11-01" "2024-11-03" three_comments_days three_comments
           739191 739193);
    [reflexivity | reflexivity | reflexivity | lia |].
  intros day day' Hday Hday' Heq.
  assert (day = 739191 ∨ day = 739192 ∨ day = 739193)
    as [->|[->| ->]] by lia;
    (assert (day' = 739191 ∨ day' = 739192 ∨ day' = 739193)
       as [->|[->| ->]] by lia);
    vm_compute in Heq; congruence.
Defined.

Lemma comments_daily_breakdown_refusals_witness :
  comments_daily_breakdown (calendar := november) bob
    "2024-11-01" "2024-11-03" three_comments_days three_comments
  = inl (inl (HTTPException 403 "Not authorized to retrieve this info"))
  ∧ comments_daily_breakdown (calendar := november) admin
      "01.11.2024" "2024-11-03" three_comments_days three_comments
    = inl (inl (HTTPException 400 "Invalid date format. Use YYYY-MM-DD."))
  ∧ comments_daily_breakdown (calendar := november) admin
      "2024-11-03" "2024-11-01" three_comments_days three_comments
    = inl (inl (HTTPException 400
                  "date_from must be earlier than date_to."))
  ∧ validate_dates (calendar := november) "2024-11-02" "2024-11-02"
    = inr (739192, 739192)
  ∧ get_date_range 739192 739192 = [739192].
Proof.
  split_and!.
  - apply (proj1 (comments_daily_breakdown_refusals (calendar := november)
                    bob "2024-11-01" "2024-11-03" three_comments_days
                    three_comments)).
    reflexivity.
  - apply (proj1 (proj2 (comments_daily_breakdown_refusals
                           (calendar := november) admin "01.11.2024"
                           "2024-11-03" three_comments_days
                           three_comments)));
      [reflexivity | left; reflexivity].
  - apply (proj1 (proj2 (proj2 (comments_daily_breakdown_refusals
                                  (calendar := november) admin "2024-11-03"
                                  "2024-11-01" three_comments_days
                                  three_comments))
                    739193 739191 eq_refl eq_refl eq_refl)).
    lia.
  - apply (proj2 (proj2 (proj2 (comments_daily_breakdown_refusals
                                  (calendar := november) admin "2024-11-02"
                                  "2024-11-02" three_comments_days
                                  three_comments))
                    739192 739192 eq_refl eq_refl eq_refl)).
    reflexivity.
  - apply (proj2 (proj2 (proj2 (comments_daily_breakdown_refusals
                                  (calendar := november) admin "2024-11-02"
                                  "2024-11-02" three_comments_days
                                  three_comments))
                    739192 739192 eq_refl eq_refl eq_refl)).
    reflexivity.
Defined.

Lemma register_spec_witness :
  register (security := toy_security) "alice" "other@example.com"
    "hunter2" "s2" users0
  = (inl (HTTPException 400 "Email or username already exists"), users0)
  ∧ ∃ users' id,
      register (security := toy_security) "bob" "bob@example.com"
        "hunter2" "s2" users0
      = (inr "User registered successfully", users')
      ∧ users0 !! id = None
      ∧ users' !! id
        = Some (UserRow.mk id "bob" "bob@example.com" "s2$hunter2"
                  true false)
      ∧ (∀ k, k ≠ id → users' !! k = users0 !! k)
      ∧ (unique_credentials users0 → unique_credentials users').
Proof.
  split.
  - apply (proj1 (register_spec (security := toy_security) "alice"
                    "other@example.com" "hunter2" "s2" users0)).
    exists 1, (UserRow.mk 1 "alice" "alice@example.com" "s1$secret"
                 true false).
    split; [reflexivity | left; reflexivity].
  - apply (proj2 (register_spec (security := toy_security) "bob"
                    "bob@example.com" "hunter2" "s2" users0)).
    intros (i & u & Hi & Hu). unfold users0 in Hi.
    apply lookup_singleton_Some in Hi as [_ <-].
    cbn in Hu. destruct Hu as [Hu|Hu]; discriminate Hu.
Defined.

Lemma login_failures_look_alike_witness :
  login (security := toy_security) "carol" "secret" 0 0 users0
  = inl (HTTPException 400 "Invalid credentials")
  ∧ login (security := toy_security) "alice" "guess" 0 0 users0
    = inl (HTTPException 400 "Invalid credentials").
Proof.
  split.
  - apply (login_failures_look_alike (security := toy_security)).
    left. intros i u Hi. unfold users0 in Hi.
    apply lookup_singleton_Some in Hi as [_ <-]. cbn. discriminate.
  - apply (login_failures_look_alike (security := toy_security)).
    right. intros i u Hi _. unfold users0 in Hi.
    apply lookup_singleton_Some in Hi as [_ <-]. vm_compute. reflexivity.
Defined.

Lemma register_then_login_witness :
  register (security := toy_security) "bob" "bob@example.com" "hunter2"
    "s2" users0
  = (inr "User registered successfully", users1)
  ∧ login (security := toy_security) "bob" "hunter2" 1000 1001 users1
    = inr (mkToken "token of bob" "token of bob" "bearer").
Proof.
  assert (H : register (security := toy_security) "bob" "bob@example.com"
                "hunter2" "s2" users0
              = (inr "User registered successfully", users1))
    by (vm_compute; reflexivity).
  split; [exact H|].
  exact (register_then_login (security := toy_security) "bob"
           "bob@example.com" "hunter2" "s2" users0 users1 1000 1001 H
           eq_refl).
Defined.
